(** * unit/test-avdtp.c: the scripted AVDTP signalling exchange

    A shallow embedding of the test harness of [unit/test-avdtp.c]: the
    PDU script, the deferred sender [send_pdu], the read handler
    [test_handler], the stream-endpoint callbacks and the GLib main loop
    that drives them, followed by the properties of the exchange. *)

From Stdlib Require Import ZArith List Bool Lia.
From Stdlib.Strings Require Import Byte.
From stdpp Require Import base list.

Local Open Scope Z_scope.

(** ** Integer types of the C source (LP64) *)

(** [unsigned int] post-increment, as in [context->pdu_offset++]. *)
Definition uint_incr (x : Z) : Z := (x + 1) mod 2 ^ 32.

(** The cast [(size_t) len] of a [ssize_t]. *)
Definition to_size_t (z : Z) : Z := z mod 2 ^ 64.

(** The cast [(ssize_t) pdu->size] of a [size_t]. *)
Definition to_ssize_t (z : Z) : Z :=
  let u := z mod 2 ^ 64 in
  if u <? 2 ^ 63 then u else u - 2 ^ 64.

(** ** GLib constants (glib.h) *)

Definition G_IO_IN : Z := 1.
Definition G_IO_ERR : Z := 8.
Definition G_IO_HUP : Z := 16.
Definition G_IO_NVAL : Z := 32.

(** ** The script: [struct test_pdu] and [define_test] *)

Record test_pdu : Type := {
  valid : bool;
  data : list byte;
  size : Z
}.

(** [raw_pdu(args...)]: [.valid = true, .data = data(args), .size = sizeof(data(args))]. *)
Definition raw_pdu (args : list byte) : test_pdu :=
  {| valid := true; data := args; size := Z.of_nat (length args) |}.

(** The zero initialiser [{ }]: [valid = false], [data = NULL], [size = 0]. *)
Definition end_pdu : test_pdu :=
  {| valid := false; data := []; size := 0 |}.

(** [define_test(name, function, args...)]: the array [{ args, { }, { } }]. *)
Definition define_test (args : list test_pdu) : list test_pdu :=
  args ++ [end_pdu; end_pdu].

(** An entry whose [size] is the size of its [data] array and fits a
    [ssize_t], as every entry built by [raw_pdu] (and [{ }]) is. *)
Definition wf_pdu (p : test_pdu) : Prop :=
  size p = Z.of_nat (length (data p)) /\ size p < 2 ^ 63.

(** ** The peer endpoint and the main loop *)

(** A system call made on the peer endpoint [context->fd], with the value
    it returned. *)
Inductive syscall : Type :=
| sys_write (buf : list byte) (count : Z) (ret : Z)
| sys_read (count : Z) (ret : Z) (buf : list byte).

(** The part of a [GMainLoop] (and of the default main context it runs)
    that the harness touches: the running flag cleared by
    [g_main_loop_quit], the number of idle sources attached by
    [g_idle_add (send_pdu, context)] and not yet run, and whether the
    I/O watch of [test_handler] is still attached. *)
Record GMainLoop : Type := {
  is_running : bool;
  idle_sources : nat;
  io_watch : bool
}.

(** [struct context].  The descriptor [fd] is represented by the history
    of the system calls made on it, latest first.  The session, the
    local endpoint, the source id and the mtu are handles the functions
    below never inspect. *)
Record context : Type := {
  main_loop : GMainLoop;
  fd : list syscall;
  pdu_offset : Z;
  pdu_list : list test_pdu
}.

Definition set_main_loop (l : GMainLoop) (c : context) : context :=
  {| main_loop := l; fd := fd c; pdu_offset := pdu_offset c;
     pdu_list := pdu_list c |}.

Definition set_pdu_offset (o : Z) (c : context) : context :=
  {| main_loop := main_loop c; fd := fd c; pdu_offset := o;
     pdu_list := pdu_list c |}.

Definition set_pdu_list (l : list test_pdu) (c : context) : context :=
  {| main_loop := main_loop c; fd := fd c; pdu_offset := pdu_offset c;
     pdu_list := l |}.

Definition log_syscall (s : syscall) (c : context) : context :=
  {| main_loop := main_loop c; fd := s :: fd c; pdu_offset := pdu_offset c;
     pdu_list := pdu_list c |}.

(** ** Outcomes *)

(** The [g_assert]s of the file, by the function they stand in. *)
Inductive assertion : Type :=
| send_pdu_len_eq_size          (* g_assert(len == (ssize_t) pdu->size) *)
| test_handler_len_positive     (* g_assert(len > 0) *)
| test_handler_len_eq_size      (* g_assert((size_t) len == pdu->size) *)
| test_handler_memcmp           (* g_assert(memcmp(buf, pdu->data, pdu->size) == 0) *)
| sep_setconf_cfm_err_null      (* g_assert(err == NULL) *)
| sep_setconf_cfm_not_reached   (* g_assert_not_reached() *)
| sep_setconf_cfm_ret_zero      (* g_assert_cmpint(ret, ==, 0) *)
| sep_open_cfm_err_null         (* g_assert(err == NULL) *)
| sep_open_cfm_not_reached      (* g_assert_not_reached() *)
| sep_open_cfm_ret_zero         (* g_assert_cmpint(ret, ==, 0) *)
| discover_cb_err_null          (* g_assert(err == NULL) *)
| discover_cb_seps_nonempty     (* g_assert_cmpint(g_slist_length(seps), !=, 0) *)
| discover_cb_rsep_nonnull      (* g_assert(rsep != NULL) *)
| discover_cb_ret_zero.         (* g_assert_cmpint(ret, ==, 0) *)

(** A call either returns a value, or stops at a failed assertion (the
    process aborts), or reads [pdu_list] or a [data] array out of its
    bounds (undefined behaviour).  Each case carries the state [S] at
    that point. *)
Inductive outcome (S A : Type) : Type :=
| Done (a : A) (s : S)
| Abort (site : assertion) (s : S)
| Fault (s : S).

Arguments Done {S A} a s.
Arguments Abort {S A} site s.
Arguments Fault {S A} s.

Definition final_state {S A : Type} (o : outcome S A) : S :=
  match o with
  | Done _ s => s
  | Abort _ s => s
  | Fault s => s
  end.

Definition aborted {S A : Type} (o : outcome S A) : bool :=
  match o with
  | Abort _ _ => true
  | _ => false
  end.

Definition returned {S A : Type} (o : outcome S A) : bool :=
  match o with
  | Done _ _ => true
  | _ => false
  end.

(** ** System calls and libc *)

(** [read(fd, buf, count)] on the [SOCK_SEQPACKET] endpoint: [incoming]
    is the packet the peer has sent ([None]: the call fails with -1);
    at most [count] bytes of it are stored, the rest is discarded. *)
Definition read (incoming : option (list byte)) (count : Z) : Z * list byte :=
  match incoming with
  | None => (-1, [])
  | Some msg =>
      let got := take (Z.to_nat count) msg in
      (Z.of_nat (length got), got)
  end.

(** [memcmp(s1, s2, n)]; [None] when [n] bytes are not there to compare. *)
Fixpoint memcmp (s1 s2 : list byte) (n : nat) {struct n} : option Z :=
  match n with
  | O => Some 0
  | S n' =>
      match s1, s2 with
      | b1 :: t1, b2 :: t2 =>
          let d := Z.of_N (Byte.to_N b1) - Z.of_N (Byte.to_N b2) in
          if d =? 0 then memcmp t1 t2 n' else Some d
      | _, _ => None
      end
  end.

(** ** The exchange engine *)

Definition g_main_loop_quit (l : GMainLoop) : GMainLoop :=
  {| is_running := false; idle_sources := idle_sources l;
     io_watch := io_watch l |}.

(** [g_idle_add(send_pdu, context)]. *)
Definition g_idle_add_send_pdu (c : context) : context :=
  set_main_loop
    {| is_running := is_running (main_loop c);
       idle_sources := S (idle_sources (main_loop c));
       io_watch := io_watch (main_loop c) |} c.

Definition context_quit (c : context) : context :=
  set_main_loop (g_main_loop_quit (main_loop c)) c.

(** [send_pdu]; [wret] is what [write] returns.  The hexdump of verbose
    runs only prints. *)
Definition send_pdu (wret : Z) (c : context) : outcome context bool :=
  let idx := pdu_offset c in
  let c := set_pdu_offset (uint_incr idx) c in
  match pdu_list c !! Z.to_nat idx with
  | None => Fault c
  | Some pdu =>
      let len := wret in
      let c := log_syscall (sys_write (data pdu) (size pdu) len) c in
      if len =? to_ssize_t (size pdu) then Done false c
      else Abort send_pdu_len_eq_size c
  end.

Definition context_process (c : context) : outcome context unit :=
  match pdu_list c !! Z.to_nat (pdu_offset c) with
  | None => Fault c
  | Some pdu =>
      if negb (valid pdu) then Done tt (context_quit c)
      else Done tt (g_idle_add_send_pdu c)
  end.

Definition terminal_cond (cond : Z) : bool :=
  negb (Z.land cond (Z.lor G_IO_NVAL (Z.lor G_IO_ERR G_IO_HUP)) =? 0).

(** [test_handler]; [incoming] is what the peer endpoint holds.  The
    hexdump of verbose runs only prints. *)
Definition test_handler (cond : Z) (incoming : option (list byte))
    (c : context) : outcome context bool :=
  let idx := pdu_offset c in
  let c := set_pdu_offset (uint_incr idx) c in
  if terminal_cond cond then Done false c
  else
    let '(len, buf) := read incoming 512 in
    let c := log_syscall (sys_read 512 len buf) c in
    if negb (0 <? len) then Abort test_handler_len_positive c
    else
      match pdu_list c !! Z.to_nat idx with
      | None => Fault c
      | Some pdu =>
          if negb (to_size_t len =? size pdu)
          then Abort test_handler_len_eq_size c
          else
            match memcmp buf (data pdu) (Z.to_nat (size pdu)) with
            | None => Fault c
            | Some r =>
                if negb (r =? 0) then Abort test_handler_memcmp c
                else
                  match context_process c with
                  | Done _ c' => Done true c'
                  | Abort site c' => Abort site c'
                  | Fault c' => Fault c'
                  end
            end
      end.

(** ** The GLib main loop *)

(** What the main loop finds ready in one iteration: an idle turn, in
    which a pending [send_pdu] source runs and [write] returns [wret];
    or readiness of the peer endpoint with condition [cond], where
    [incoming] is what a [read] would find. *)
Inductive event : Type :=
| ev_idle (wret : Z)
| ev_io (cond : Z) (incoming : option (list byte)).

Definition ready (e : event) (c : context) : bool :=
  match e with
  | ev_idle _ => negb (Nat.eqb (idle_sources (main_loop c)) 0)
  | ev_io _ _ => io_watch (main_loop c)
  end.

(** A source whose callback returns [FALSE] is destroyed. *)
Definition remove_idle_source (c : context) : context :=
  set_main_loop
    {| is_running := is_running (main_loop c);
       idle_sources := Nat.pred (idle_sources (main_loop c));
       io_watch := io_watch (main_loop c) |} c.

Definition remove_io_watch (c : context) : context :=
  set_main_loop
    {| is_running := is_running (main_loop c);
       idle_sources := idle_sources (main_loop c);
       io_watch := false |} c.

Definition dispatch (e : event) (c : context) : outcome context unit :=
  match e with
  | ev_idle wret =>
      match send_pdu wret c with
      | Done keep c' => Done tt (if keep then c' else remove_idle_source c')
      | Abort site c' => Abort site c'
      | Fault c' => Fault c'
      end
  | ev_io cond incoming =>
      match test_handler cond incoming c with
      | Done keep c' => Done tt (if keep then c' else remove_io_watch c')
      | Abort site c' => Abort site c'
      | Fault c' => Fault c'
      end
  end.

(** [while (loop->is_running) g_main_context_iterate (...)] over the
    events [es] the run meets, in any order of idle turns and endpoint
    readiness; an event no source waits for is dropped.  When [es] ends
    with the loop still running, the loop is blocked. *)
Fixpoint iterate (es : list event) (c : context) : outcome context unit :=
  match es with
  | [] => Done tt c
  | e :: es' =>
      if negb (is_running (main_loop c)) then Done tt c
      else if ready e c then
        match dispatch e c with
        | Done _ c' => iterate es' c'
        | Abort site c' => Abort site c'
        | Fault c' => Fault c'
        end
      else iterate es' c
  end.

Definition g_main_loop_run (es : list event) (c : context)
    : outcome context unit :=
  iterate es
    (set_main_loop
       {| is_running := true;
          idle_sources := idle_sources (main_loop c);
          io_watch := io_watch (main_loop c) |} c).

(** ** The scenarios *)

(** [create_context]: [g_new0], a new main loop, and the watch of
    [test_handler] on the peer endpoint. *)
Definition create_context : context :=
  {| main_loop := {| is_running := false; idle_sources := 0;
                     io_watch := true |};
     fd := [];
     pdu_offset := 0;
     pdu_list := [] |}.

(** [execute_context]: run the loop; the teardown that follows frees the
    context. *)
Definition execute_context (es : list event) (c : context)
    : outcome context unit :=
  g_main_loop_run es c.

Definition test_server (test : list test_pdu) (es : list event)
    : outcome context unit :=
  let context := create_context in
  let context := set_pdu_list test context in
  let context := g_idle_add_send_pdu context in
  execute_context es context.

(** [test_discover], and with it [test_get_capabilities],
    [test_set_configuration], [test_get_configuration], [test_open] and
    [test_start], which differ in the endpoint they register with the
    session only: no send is queued before the loop runs. *)
Definition test_discover (test : list test_pdu) (es : list event)
    : outcome context unit :=
  let context := create_context in
  let context := set_pdu_list test context in
  execute_context es context.

(** Counting the system calls of a run. *)
Definition is_write (s : syscall) : bool :=
  match s with sys_write _ _ _ => true | sys_read _ _ _ => false end.

Definition is_read (s : syscall) : bool :=
  match s with sys_read _ _ _ => true | sys_write _ _ _ => false end.

Definition sends (c : context) : nat :=
  length (List.filter is_write (fd c)).
Definition reads (c : context) : nat :=
  length (List.filter is_read (fd c)).

(** The bytes a system call moved. *)
Definition payload (s : syscall) : list byte :=
  match s with
  | sys_write buf count _ => take (Z.to_nat count) buf
  | sys_read _ _ buf => buf
  end.

(** The bytes sent and received over the endpoint, oldest first. *)
Definition transcript (c : context) : list (list byte) :=
  map payload (rev (fd c)).

(** ** The stream-endpoint callbacks *)

(** [struct avdtp_media_codec_capability] (android/avdtp.h). *)
Record avdtp_media_codec_capability : Type := {
  rfa0 : Z;
  media_type : Z;
  media_codec_type : Z;
  codec_data : list byte
}.

(** What the calls into the session and the kernel return. *)
Record engine : Type := {
  avdtp_get_configuration : Z;
  avdtp_open : Z;
  avdtp_start : Z;
  open_dev_null : Z;
  avdtp_find_remote_sep : bool;
  avdtp_set_configuration : Z
}.

Section Callbacks.

(** Taken as parameters: the declarations of android/avdtp.h and the
    constructor of android/avdtp.c that the callbacks use. *)
Variable avdtp_error : Type.
Variable avdtp_remote_sep : Type.
Variable avdtp_service_capability : Type.
Variable avdtp_service_cap_new :
  Z -> option avdtp_media_codec_capability -> Z -> avdtp_service_capability.
Variable AVDTP_MEDIA_TRANSPORT : Z.
Variable AVDTP_MEDIA_CODEC : Z.
Variable AVDTP_MEDIA_TYPE_AUDIO : Z.
(** [sizeof(struct avdtp_media_codec_capability)]. *)
Variable sizeof_media_codec_capability : Z.

(** The calls a callback makes, latest first. *)
Inductive engine_call : Type :=
| call_avdtp_get_configuration
| call_avdtp_open
| call_avdtp_start
| call_open_dev_null
| call_avdtp_stream_set_transport (fd imtu omtu : Z)
| call_avdtp_find_remote_sep
| call_avdtp_set_configuration (caps : list avdtp_service_capability).

Definition g_slist_append {A : Type} (l : list A) (x : A) : list A :=
  l ++ [x].

(** [sep_getcap_ind]: the value returned, [*caps] and [*err] after the
    call, from [get_all] and [*caps] and [*err] before it. *)
Definition sep_getcap_ind (get_all : bool)
    (caps : list avdtp_service_capability) (err : Z)
    : bool * list avdtp_service_capability * Z :=
  let cap := [xff; xff; x02; x40] in
  let caps := [] in
  let media_transport :=
    avdtp_service_cap_new AVDTP_MEDIA_TRANSPORT None 0 in
  let caps := g_slist_append caps media_transport in
  let codec_caps :=
    {| rfa0 := 0; media_type := AVDTP_MEDIA_TYPE_AUDIO;
       media_codec_type := 0; codec_data := cap |} in
  let media_codec :=
    avdtp_service_cap_new AVDTP_MEDIA_CODEC (Some codec_caps)
      (sizeof_media_codec_capability + Z.of_nat (length cap)) in
  let caps := g_slist_append caps media_codec in
  (true, caps, err).

Definition sep_setconf_cfm (eng : engine) (err : option avdtp_error)
    (user_data : option context) (calls : list engine_call)
    : outcome (list engine_call) unit :=
  if negb (bool_decide (err = None))
  then Abort sep_setconf_cfm_err_null calls
  else
    match user_data with
    | None => Done tt calls
    | Some context =>
        match pdu_list context !! Z.to_nat (pdu_offset context) with
        | None => Fault calls
        | Some pdu =>
            if size pdu <? 2 then Done tt calls
            else
              match data pdu !! 1%nat with
              | None => Fault calls
              | Some b =>
                  let sw :=
                    if Byte.eqb b x04
                    then Some (avdtp_get_configuration eng,
                               call_avdtp_get_configuration :: calls)
                    else if Byte.eqb b x06
                    then Some (avdtp_open eng, call_avdtp_open :: calls)
                    else None in
                  match sw with
                  | None => Abort sep_setconf_cfm_not_reached calls
                  | Some (ret, calls) =>
                      if ret =? 0 then Done tt calls
                      else Abort sep_setconf_cfm_ret_zero calls
                  end
              end
        end
    end.

Definition sep_open_cfm (eng : engine) (err : option avdtp_error)
    (calls : list engine_call) : outcome (list engine_call) unit :=
  if negb (bool_decide (err = None))
  then Abort sep_open_cfm_err_null calls
  else
    let ret := open_dev_null eng in
    let calls := call_open_dev_null :: calls in
    if ret <? 0 then Abort sep_open_cfm_not_reached calls
    else
      let calls := call_avdtp_stream_set_transport ret 672 672 :: calls in
      let ret := avdtp_start eng in
      let calls := call_avdtp_start :: calls in
      if ret =? 0 then Done tt calls
      else Abort sep_open_cfm_ret_zero calls.

Definition discover_cb (eng : engine) (seps : list avdtp_remote_sep)
    (err : option avdtp_error) (user_data : option context)
    (calls : list engine_call) : outcome (list engine_call) unit :=
  match user_data with
  | None => Done tt calls
  | Some context =>
      if negb (bool_decide (err = None))
      then Abort discover_cb_err_null calls
      else if negb (negb (Nat.eqb (length seps) 0))
      then Abort discover_cb_seps_nonempty calls
      else
        let data := [x21; x02; x02; x20] in
        let rsep := avdtp_find_remote_sep eng in
        let calls := call_avdtp_find_remote_sep :: calls in
        if negb rsep then Abort discover_cb_rsep_nonnull calls
        else
          let media_transport :=
            avdtp_service_cap_new AVDTP_MEDIA_TRANSPORT None 0 in
          let caps := g_slist_append [] media_transport in
          let cap :=
            {| rfa0 := 0; media_type := AVDTP_MEDIA_TYPE_AUDIO;
               media_codec_type := 0; codec_data := data |} in
          let media_codec :=
            avdtp_service_cap_new AVDTP_MEDIA_CODEC (Some cap)
              (sizeof_media_codec_capability + Z.of_nat (length data)) in
          let caps := g_slist_append caps media_codec in
          let ret := avdtp_set_configuration eng in
          let calls := call_avdtp_set_configuration caps :: calls in
          if ret =? 0 then Done tt calls
          else Abort discover_cb_ret_zero calls
  end.

End Callbacks.

Arguments sep_getcap_ind {avdtp_service_capability}.
Arguments sep_setconf_cfm {avdtp_error avdtp_service_capability}.
Arguments sep_open_cfm {avdtp_error avdtp_service_capability}.
Arguments discover_cb {avdtp_error avdtp_remote_sep avdtp_service_capability}.

(** ** Scripts as [main] writes them *)

(** The entries of three of the scripts of [main], with the bytes of
    their initialisers. *)

Definition TP_SIG_SMG_BV_05_C : list test_pdu :=
  define_test [raw_pdu [x00; x01]].

Definition TP_SIG_SMG_BV_06_C : list test_pdu :=
  define_test [raw_pdu [x00; x01]; raw_pdu [x02; x01; x04; x00]].

Definition TP_SIG_SMG_BV_08_C : list test_pdu :=
  define_test
    [raw_pdu [x00; x01];
     raw_pdu [x02; x01; x04; x00];
     raw_pdu [x10; x02; x04];
     raw_pdu [x12; x02; x01; x00; x07; x06; x00; x00; xff; xff; x02; x40]].

(** The context of a scenario over [test] when its loop starts. *)
Definition scenario (test : list test_pdu) : context :=
  set_pdu_list test create_context.

(** ** Intermediate states of the two callbacks *)

(** The context after [pdu_list[pdu_offset++]]. *)
Definition consumed (c : context) : context :=
  set_pdu_offset (pdu_offset c + 1) c.

(** The context once [read] has returned in [test_handler]. *)
Definition after_read (incoming : option (list byte)) (c : context)
    : context :=
  log_syscall
    (sys_read 512 (read incoming 512).1 (read incoming 512).2) (consumed c).

(** The context once [write] has returned in [send_pdu]. *)
Definition after_write (pdu : test_pdu) (wret : Z) (c : context) : context :=
  log_syscall (sys_write (data pdu) (size pdu) wret) (consumed c).

(** ** Invariants of a run *)

(** Whether [g_main_loop_quit] was called, as a count. *)
Definition quits (c : context) : nat :=
  if is_running (main_loop c) then 0%nat else 1%nat.

(** What holds between two dispatches of a scenario over [test] that
    started with [k] sends queued. *)
Definition exchange_inv (k : nat) (test : list test_pdu) (c : context)
    : Prop :=
  pdu_list c = test /\
  (sends c + idle_sources (main_loop c) + quits c = k + reads c)%nat /\
  0 <= pdu_offset c
    <= Z.of_nat (length test) + (if io_watch (main_loop c) then 0 else 1) /\
  transcript c `sublist_of`
    map data (take (Z.to_nat (pdu_offset c)) test).


(** ** The session the scripts expect *)

(** The events of an exchange that follows the entries [args] turn by
    turn: an entry the harness sends is written whole in an idle turn,
    an entry the session sends arrives as the very bytes of the entry.
    [sending] tells whether the first entry is one the harness sends. *)
Fixpoint conforming (sending : bool) (args : list (list byte)) : list event :=
  match args with
  | [] => []
  | a :: rest =>
      (if sending then ev_idle (Z.of_nat (length a))
       else ev_io G_IO_IN (Some a))
      :: conforming (negb sending) rest
  end.

(** Whose turn it is after [n] entries. *)
Definition turn_after (sending : bool) (n : nat) : bool :=
  if Nat.even n then sending else negb sending.

(** What the cursor, the system calls and the loop flags of a scenario
    over [test] tell about each other between two dispatches. *)
Definition account_inv (test : list test_pdu) (c : context) : Prop :=
  pdu_list c = test /\
  pdu_offset c
  = Z.of_nat (sends c + reads c)
    + (if io_watch (main_loop c) then 0 else 1) /\
  (io_watch (main_loop c) = true ->
   transcript c = map data (take (Z.to_nat (pdu_offset c)) test)) /\
  (is_running (main_loop c) = false ->
   io_watch (main_loop c) = true /\
   0 < pdu_offset c /\
   exists prev last,
     test !! Z.to_nat (pdu_offset c - 1) = Some prev /\ 0 < size prev /\
     test !! Z.to_nat (pdu_offset c) = Some last /\ valid last = false).

(** ** A script with a configuration exchange *)

(** The entries of the script that [main] writes for
    /TP/SIG/SMG/BV-11-C. *)
Definition TP_SIG_SMG_BV_11_C : list test_pdu :=
  define_test
    [raw_pdu [x60; x01];
     raw_pdu [x62; x01; x04; x00];
     raw_pdu [x70; x02; x04];
     raw_pdu [x72; x02; x01; x00; x07; x06; x00; x00; xff; xff; x02; x40];
     raw_pdu [x80; x03; x04; x04; x01; x00; x07; x06; x00; x00; x21; x02;
              x02; x20];
     raw_pdu [x82; x03];
     raw_pdu [x90; x04; x04]].

(** ** The writes of a run *)



(** * Properties *)

(** ** Integers, [read] and [memcmp] *)

Lemma uint_incr_small (x : Z) : 0 <= x < 2 ^ 32 - 1 -> uint_incr x = x + 1.
Proof. intros Hx. unfold uint_incr. apply Z.mod_small. lia. Qed.

Lemma to_size_t_small (z : Z) : 0 <= z < 2 ^ 64 -> to_size_t z = z.
Proof. intros Hz. unfold to_size_t. now apply Z.mod_small. Qed.

Lemma to_ssize_t_small (z : Z) : 0 <= z < 2 ^ 63 -> to_ssize_t z = z.
Proof.
  intros Hz. unfold to_ssize_t.
  rewrite Z.mod_small by lia.
  destruct (Z.ltb_spec z (2 ^ 63)); [reflexivity | lia].
Qed.

Lemma to_ssize_t_wf (p : test_pdu) : wf_pdu p -> to_ssize_t (size p) = size p.
Proof. intros [Hs Hb]. apply to_ssize_t_small. lia. Qed.

Lemma wf_raw_pdu (args : list byte) :
  Z.of_nat (length args) < 2 ^ 63 -> wf_pdu (raw_pdu args).
Proof. intros H. split; [reflexivity | exact H]. Qed.

Lemma wf_end_pdu : wf_pdu end_pdu.
Proof. split; [reflexivity | reflexivity]. Qed.

(** [read] stores what it returns, never more than [count] bytes. *)
Lemma read_bounds (incoming : option (list byte)) (count : Z) :
  0 <= count ->
  (read incoming count).1 <= count /\
  (0 <= (read incoming count).1 ->
   (read incoming count).1 = Z.of_nat (length (read incoming count).2)).
Proof.
  intros Hc. destruct incoming as [msg|]; simpl.
  - rewrite length_take. split; lia.
  - split; lia.
Qed.

Lemma read_error (count : Z) : read None count = (-1, []).
Proof. reflexivity. Qed.

Lemma read_packet (msg : list byte) (count : Z) :
  Z.of_nat (length msg) <= count ->
  read (Some msg) count = (Z.of_nat (length msg), msg).
Proof.
  intros H. unfold read.
  rewrite take_ge by lia. reflexivity.
Qed.

Lemma byte_to_N_inj (a b : byte) : Byte.to_N a = Byte.to_N b -> a = b.
Proof.
  intros H.
  assert (E : Some a = Some b)
    by (rewrite <- (Byte.of_to_N a), <- (Byte.of_to_N b), H; reflexivity).
  now inversion E.
Qed.

(** [memcmp] over [n] bytes that are there: zero exactly on equal bytes. *)
Lemma memcmp_spec (s1 s2 : list byte) (n : nat) :
  (n <= length s1)%nat -> (n <= length s2)%nat ->
  exists r, memcmp s1 s2 n = Some r /\ (r = 0 <-> take n s1 = take n s2).
Proof.
  revert s1 s2. induction n as [|n IH]; intros s1 s2 H1 H2.
  - exists 0. simpl. rewrite !take_0. split; [reflexivity | split; reflexivity].
  - destruct s1 as [|b1 t1]; [simpl in H1; lia|].
    destruct s2 as [|b2 t2]; [simpl in H2; lia|].
    simpl in H1, H2. cbn [memcmp].
    destruct (Z.eqb_spec (Z.of_N (Byte.to_N b1) - Z.of_N (Byte.to_N b2)) 0)
      as [E|E].
    + assert (b1 = b2) as -> by (apply byte_to_N_inj; lia).
      destruct (IH t1 t2) as (r & Hr & Hiff); [lia | lia |].
      exists r. split; [exact Hr|]. rewrite Hiff. cbn [take].
      split; [now intros -> | now intros [= ->]].
    + eexists. split; [reflexivity|]. cbn [take].
      split; [intros E'; contradiction | intros [= -> _]; lia].
Qed.

Lemma memcmp_whole (buf dat : list byte) :
  length buf = length dat ->
  exists r, memcmp buf dat (length dat) = Some r /\ (r = 0 <-> buf = dat).
Proof.
  intros Hl.
  destruct (memcmp_spec buf dat (length dat)) as (r & Hr & Hiff);
    [lia | lia |].
  exists r. split; [exact Hr|].
  rewrite Hiff, <- Hl at 1. rewrite !firstn_all. reflexivity.
Qed.

(** The handler's test [cond & (G_IO_NVAL | G_IO_ERR | G_IO_HUP)] holds
    exactly when one of the three flags is set. *)
Lemma terminal_cond_spec (cond : Z) :
  terminal_cond cond = true <->
  Z.testbit cond 3 = true \/ Z.testbit cond 4 = true \/
  Z.testbit cond 5 = true.
Proof.
  unfold terminal_cond.
  change (Z.lor G_IO_NVAL (Z.lor G_IO_ERR G_IO_HUP)) with 56.
  rewrite negb_true_iff, Z.eqb_neq. split.
  - intros Hne.
    destruct (Z.testbit cond 3) eqn:H3; [auto |].
    destruct (Z.testbit cond 4) eqn:H4; [auto |].
    destruct (Z.testbit cond 5) eqn:H5; [auto |].
    exfalso. apply Hne. apply Z.bits_inj'. intros n Hn.
    rewrite Z.land_spec, Z.bits_0.
    destruct (Z.eq_dec n 3) as [-> | N3]; [now rewrite H3 |].
    destruct (Z.eq_dec n 4) as [-> | N4]; [now rewrite H4 |].
    destruct (Z.eq_dec n 5) as [-> | N5]; [now rewrite H5 |].
    apply andb_false_intro2.
    assert (Hc : n = 0 \/ n = 1 \/ n = 2 \/ 6 <= n) by lia.
    destruct Hc as [-> | [-> | [-> | Hc]]]; try reflexivity.
    apply Z.bits_above_log2; [lia |].
    change (Z.log2 56) with 5. lia.
  - intros H E.
    destruct H as [H | [H | H]].
    + apply (f_equal (fun z => Z.testbit z 3)) in E.
      rewrite Z.land_spec, H in E. discriminate E.
    + apply (f_equal (fun z => Z.testbit z 4)) in E.
      rewrite Z.land_spec, H in E. discriminate E.
    + apply (f_equal (fun z => Z.testbit z 5)) in E.
      rewrite Z.land_spec, H in E. discriminate E.
Qed.

Lemma wf_define_test (args : list (list byte)) :
  Forall (fun a => Z.of_nat (length a) < 2 ^ 63) args ->
  Forall wf_pdu (define_test (map raw_pdu args)).
Proof.
  intros Hargs. unfold define_test. apply Forall_app. split.
  - apply Forall_fmap. eapply Forall_impl; [exact Hargs |].
    intros a Ha. now apply wf_raw_pdu.
  - repeat constructor.
Qed.

(** ** The two callbacks of the main loop, case by case *)

Lemma test_handler_terminal (cond : Z) (incoming : option (list byte))
    (c : context) :
  0 <= pdu_offset c < 2 ^ 32 - 1 ->
  terminal_cond cond = true ->
  test_handler cond incoming c = Done false (consumed c).
Proof.
  intros Ho Ht. unfold test_handler, consumed.
  rewrite Ht, uint_incr_small by exact Ho. reflexivity.
Qed.

Lemma test_handler_no_data (cond : Z) (incoming : option (list byte))
    (c : context) :
  0 <= pdu_offset c < 2 ^ 32 - 1 ->
  terminal_cond cond = false ->
  (read incoming 512).1 <= 0 ->
  test_handler cond incoming c
  = Abort test_handler_len_positive (after_read incoming c).
Proof.
  intros Ho Ht Hl. unfold test_handler, after_read, consumed.
  rewrite Ht, uint_incr_small by exact Ho.
  destruct (read incoming 512) as [len buf]. simpl in *.
  destruct (Z.ltb_spec 0 len); [lia | reflexivity].
Qed.

Lemma test_handler_out_of_script (cond : Z) (incoming : option (list byte))
    (c : context) :
  0 <= pdu_offset c < 2 ^ 32 - 1 ->
  terminal_cond cond = false ->
  0 < (read incoming 512).1 ->
  pdu_list c !! Z.to_nat (pdu_offset c) = None ->
  test_handler cond incoming c = Fault (after_read incoming c).
Proof.
  intros Ho Ht Hl Hp. unfold test_handler, after_read, consumed.
  rewrite Ht, uint_incr_small by exact Ho.
  destruct (read incoming 512) as [len buf]. simpl in *.
  destruct (Z.ltb_spec 0 len); [| lia]. simpl.
  rewrite Hp. reflexivity.
Qed.

Lemma test_handler_wrong_length (cond : Z) (incoming : option (list byte))
    (c : context) (pdu : test_pdu) :
  0 <= pdu_offset c < 2 ^ 32 - 1 ->
  terminal_cond cond = false ->
  pdu_list c !! Z.to_nat (pdu_offset c) = Some pdu ->
  0 < (read incoming 512).1 ->
  (read incoming 512).1 <> size pdu ->
  test_handler cond incoming c
  = Abort test_handler_len_eq_size (after_read incoming c).
Proof.
  intros Ho Ht Hp Hl Hs. unfold test_handler, after_read, consumed.
  rewrite Ht, uint_incr_small by exact Ho.
  pose proof (read_bounds incoming 512 ltac:(lia)) as [Hb _].
  destruct (read incoming 512) as [len buf]. simpl in *.
  destruct (Z.ltb_spec 0 len); [| lia]. simpl.
  rewrite Hp, to_size_t_small by lia.
  destruct (Z.eqb_spec len (size pdu)); [contradiction | reflexivity].
Qed.

Lemma test_handler_wrong_bytes (cond : Z) (incoming : option (list byte))
    (c : context) (pdu : test_pdu) :
  0 <= pdu_offset c < 2 ^ 32 - 1 ->
  terminal_cond cond = false ->
  pdu_list c !! Z.to_nat (pdu_offset c) = Some pdu ->
  wf_pdu pdu ->
  0 < (read incoming 512).1 ->
  (read incoming 512).1 = size pdu ->
  (read incoming 512).2 <> data pdu ->
  test_handler cond incoming c
  = Abort test_handler_memcmp (after_read incoming c).
Proof.
  intros Ho Ht Hp [Hw Hw'] Hl Hs Hd. unfold test_handler, after_read, consumed.
  rewrite Ht, uint_incr_small by exact Ho.
  pose proof (read_bounds incoming 512 ltac:(lia)) as [Hb Hlen].
  destruct (read incoming 512) as [len buf]. simpl in *.
  destruct (Z.ltb_spec 0 len); [| lia]. simpl.
  rewrite Hp, to_size_t_small by lia.
  destruct (Z.eqb_spec len (size pdu)); [| contradiction]. simpl.
  rewrite Hw, Nat2Z.id.
  destruct (memcmp_whole buf (data pdu)) as (r & -> & Hiff); [lia|].
  destruct (Z.eqb_spec r 0) as [E|E]; [| reflexivity].
  apply Hiff in E. contradiction.
Qed.

Lemma test_handler_verified (cond : Z) (incoming : option (list byte))
    (c : context) (pdu next : test_pdu) :
  0 <= pdu_offset c < 2 ^ 32 - 1 ->
  terminal_cond cond = false ->
  pdu_list c !! Z.to_nat (pdu_offset c) = Some pdu ->
  wf_pdu pdu ->
  pdu_list c !! Z.to_nat (pdu_offset c + 1) = Some next ->
  0 < (read incoming 512).1 ->
  (read incoming 512).2 = data pdu ->
  test_handler cond incoming c
  = Done true (if valid next
               then g_idle_add_send_pdu (after_read incoming c)
               else context_quit (after_read incoming c)).
Proof.
  intros Ho Ht Hp [Hw Hw'] Hn Hl Hd. unfold test_handler, after_read, consumed.
  rewrite Ht, uint_incr_small by exact Ho.
  pose proof (read_bounds incoming 512 ltac:(lia)) as [Hb Hlen].
  destruct (read incoming 512) as [len buf]. simpl in *. subst buf.
  destruct (Z.ltb_spec 0 len); [| lia]. simpl.
  rewrite Hp, to_size_t_small by lia.
  destruct (Z.eqb_spec len (size pdu)); [| lia]. simpl.
  rewrite Hw, Nat2Z.id.
  destruct (memcmp_whole (data pdu) (data pdu)) as (r & -> & Hiff);
    [reflexivity|].
  destruct (Z.eqb_spec r 0) as [E|E]; [| now destruct E; apply Hiff].
  simpl. unfold context_process. simpl. rewrite Hn.
  destruct (valid next); reflexivity.
Qed.

Lemma context_process_keeps (c : context) :
  pdu_offset (final_state (context_process c)) = pdu_offset c /\
  fd (final_state (context_process c)) = fd c.
Proof.
  unfold context_process.
  destruct (pdu_list c !! Z.to_nat (pdu_offset c)) as [pdu|];
    [destruct (valid pdu) |]; split; reflexivity.
Qed.

(** Walks through the branches of [test_handler] down to the call of
    [context_process]. *)
Ltac handler_cases :=
  let fin := solve [discriminate | reflexivity] in
  unfold test_handler;
  destruct (terminal_cond _); [fin |];
  destruct (read _ 512) as [? ?];
  destruct (negb (0 <? _)); [fin |];
  cbn [pdu_list set_pdu_offset log_syscall];
  destruct (pdu_list _ !! _); [| fin];
  destruct (negb (_ =? _)); [fin |];
  destruct (memcmp _ _ _); [| fin];
  destruct (negb (_ =? 0)); [fin |];
  match goal with
  | |- context [context_process ?x] =>
      let Ho := fresh "Hoff" in
      let Hf := fresh "Hfd" in
      destruct (context_process_keeps x) as [Ho Hf];
      destruct (context_process x); simpl in Ho, Hf |- *
  end.

Lemma test_handler_data_fd (cond : Z) (incoming : option (list byte))
    (c : context) :
  terminal_cond cond = false ->
  fd (final_state (test_handler cond incoming c))
  = fd (after_read incoming c).
Proof.
  intros Ht. unfold after_read. handler_cases; assumption.
Qed.

Lemma test_handler_pdu_offset (cond : Z) (incoming : option (list byte))
    (c : context) :
  0 <= pdu_offset c < 2 ^ 32 - 1 ->
  pdu_offset (final_state (test_handler cond incoming c)) = pdu_offset c + 1.
Proof.
  intros Ho. rewrite <- (uint_incr_small (pdu_offset c)) by exact Ho.
  handler_cases; assumption.
Qed.

(** Any bytes other than the entry's stop the handler at an assertion,
    in the state it reached when [read] returned. *)
Lemma test_handler_mismatch (cond : Z) (incoming : option (list byte))
    (c : context) (pdu : test_pdu) :
  0 <= pdu_offset c < 2 ^ 32 - 1 ->
  terminal_cond cond = false ->
  pdu_list c !! Z.to_nat (pdu_offset c) = Some pdu ->
  wf_pdu pdu ->
  (read incoming 512).2 <> data pdu ->
  exists site,
    test_handler cond incoming c = Abort site (after_read incoming c).
Proof.
  intros Ho Ht Hp Hw Hd.
  destruct (Z.le_gt_cases (read incoming 512).1 0) as [Hl|Hl].
  { eexists. now apply test_handler_no_data. }
  destruct (Z.eq_dec (read incoming 512).1 (size pdu)) as [Hs|Hs].
  - eexists. apply test_handler_wrong_bytes with pdu; (assumption || lia).
  - eexists. apply test_handler_wrong_length with pdu; (assumption || lia).
Qed.

(** Overwriting one byte of a packet with another byte changes what
    [read] stores of it, however long the packet is. *)
Lemma altered_byte_observed (dat : list byte) (i : nat) (b b' : byte) :
  dat !! i = Some b -> b' <> b ->
  (read (Some (<[i:=b']> dat)) 512).2 <> dat.
Proof.
  intros Hi Hb. simpl. intros E.
  assert (Hlen : (length dat <= Z.to_nat 512)%nat).
  { apply (f_equal length) in E.
    rewrite length_take, length_insert in E. lia. }
  rewrite take_ge in E by (rewrite length_insert; exact Hlen).
  apply lookup_lt_Some in Hi as Hlt.
  pose proof (list_lookup_insert_eq dat i b' Hlt) as Hi'.
  rewrite E, Hi in Hi'. congruence.
Qed.

(** ** The read handler on a data event *)

(** C1. On a data event (no error, hangup or invalid flag) the handler
    reads once and checks what it read against the entry at the cursor:
    a read of no bytes, a length other than the entry's, or a byte that
    differs each stop the scenario at an assertion, with the read made
    and the main loop as it was.  Bytes equal to the entry's make the
    handler return TRUE, keeping its watch, after one of two steps: when
    the next entry is the end marker the loop is no longer running and
    nothing was queued; otherwise the loop has one idle source more, a
    [send_pdu], and runs on. *)
Theorem test_handler_data_event (cond : Z) (incoming : option (list byte))
    (c : context) (pdu next : test_pdu) :
  0 <= pdu_offset c < 2 ^ 32 - 1 ->
  terminal_cond cond = false ->
  pdu_list c !! Z.to_nat (pdu_offset c) = Some pdu ->
  wf_pdu pdu ->
  pdu_list c !! Z.to_nat (pdu_offset c + 1) = Some next ->
  let len := (read incoming 512).1 in
  let observed := (read incoming 512).2 in
  (len <= 0 ->
   test_handler cond incoming c
   = Abort test_handler_len_positive (after_read incoming c)) /\
  (0 < len -> len <> size pdu ->
   test_handler cond incoming c
   = Abort test_handler_len_eq_size (after_read incoming c)) /\
  (0 < len -> len = size pdu -> observed <> data pdu ->
   test_handler cond incoming c
   = Abort test_handler_memcmp (after_read incoming c)) /\
  (fd (after_read incoming c) = sys_read 512 len observed :: fd c /\
   pdu_offset (after_read incoming c) = pdu_offset c + 1 /\
   main_loop (after_read incoming c) = main_loop c) /\
  (0 < len -> observed = data pdu ->
   test_handler cond incoming c
   = Done true (if valid next
                then g_idle_add_send_pdu (after_read incoming c)
                else context_quit (after_read incoming c)) /\
   exists c',
     test_handler cond incoming c = Done true c' /\
     fd c' = sys_read 512 len observed :: fd c /\
     pdu_offset c' = pdu_offset c + 1 /\
     pdu_list c' = pdu_list c /\
     io_watch (main_loop c') = io_watch (main_loop c) /\
     (valid next = false ->
      is_running (main_loop c') = false /\
      idle_sources (main_loop c') = idle_sources (main_loop c)) /\
     (valid next = true ->
      is_running (main_loop c') = is_running (main_loop c) /\
      idle_sources (main_loop c') = S (idle_sources (main_loop c)))).
Proof.
  intros Ho Ht Hp Hw Hn len observed. subst len observed.
  split; [| split; [| split; [| split]]].
  - intros. now apply test_handler_no_data.
  - intros. now apply test_handler_wrong_length with pdu.
  - intros. now apply test_handler_wrong_bytes with pdu.
  - split; [reflexivity | split; reflexivity].
  - intros Hl Hd.
    pose proof (test_handler_verified cond incoming c pdu next
                  Ho Ht Hp Hw Hn Hl Hd) as Hv.
    split; [exact Hv |]. eexists. split; [exact Hv |].
    destruct (valid next); simpl;
      repeat (split; [reflexivity |]);
      (split; [intros E | intros E]);
      first [discriminate E | split; reflexivity].
Qed.

Lemma test_handler_data_event_witness :
  exists c',
    test_handler G_IO_IN (Some [x00; x01])
      (set_main_loop
         {| is_running := true; idle_sources := 0; io_watch := true |}
         (scenario TP_SIG_SMG_BV_05_C))
    = Done true c' /\
    fd c' = [sys_read 512 2 [x00; x01]] /\
    pdu_offset c' = 1 /\
    is_running (main_loop c') = false /\
    idle_sources (main_loop c') = 0%nat.
Proof.
  destruct (proj2 (proj2 (proj2 (proj2
    (test_handler_data_event G_IO_IN (Some [x00; x01])
       (set_main_loop
          {| is_running := true; idle_sources := 0; io_watch := true |}
          (scenario TP_SIG_SMG_BV_05_C))
       (raw_pdu [x00; x01]) end_pdu
       ltac:(simpl; lia) eq_refl eq_refl
       ltac:(split; vm_compute; reflexivity) eq_refl))))
    ltac:(simpl; lia) eq_refl)
    as (_ & c' & Hc & Hfd & Ho & _ & _ & Hq & _).
  exists c'. split; [exact Hc |]. split; [exact Hfd |].
  split; [exact Ho |]. exact (Hq eq_refl).
Defined.

(** ** The deferred send *)

(** C5. A run of [send_pdu] takes the entry at the cursor and makes one
    [write] of the entry's [data] and [size]; it returns only when
    [write] returned the entry's size and stops at its assertion
    otherwise.  It leaves the main loop as it found it, queueing and
    quitting nothing, and as it returns FALSE its idle source is removed
    and does not run again. *)
Theorem send_pdu_single_write (wret : Z) (c : context) (pdu : test_pdu) :
  0 <= pdu_offset c < 2 ^ 32 - 1 ->
  pdu_list c !! Z.to_nat (pdu_offset c) = Some pdu ->
  wf_pdu pdu ->
  (wret = size pdu -> send_pdu wret c = Done false (after_write pdu wret c)) /\
  (wret <> size pdu ->
   send_pdu wret c = Abort send_pdu_len_eq_size (after_write pdu wret c)) /\
  fd (after_write pdu wret c) = sys_write (data pdu) (size pdu) wret :: fd c /\
  payload (sys_write (data pdu) (size pdu) wret) = data pdu /\
  main_loop (after_write pdu wret c) = main_loop c /\
  (wret = size pdu ->
   dispatch (ev_idle wret) c
   = Done tt (remove_idle_source (after_write pdu wret c)) /\
   idle_sources (main_loop (remove_idle_source (after_write pdu wret c)))
   = Nat.pred (idle_sources (main_loop c))).
Proof.
  intros Ho Hp Hw.
  assert (Hs : send_pdu wret c
               = if wret =? size pdu then Done false (after_write pdu wret c)
                 else Abort send_pdu_len_eq_size (after_write pdu wret c)).
  { unfold send_pdu, after_write, consumed. simpl. rewrite Hp.
    rewrite uint_incr_small, to_ssize_t_wf by assumption. reflexivity. }
  split; [| split; [| split; [| split; [| split]]]].
  - intros ->. rewrite Hs, Z.eqb_refl. reflexivity.
  - intros Hne. rewrite Hs.
    destruct (Z.eqb_spec wret (size pdu)); [contradiction | reflexivity].
  - reflexivity.
  - destruct Hw as [Hw _]. simpl. rewrite Hw, Nat2Z.id.
    apply firstn_all.
  - reflexivity.
  - intros ->. unfold dispatch. rewrite Hs, Z.eqb_refl.
    split; reflexivity.
Qed.

Lemma send_pdu_single_write_witness :
  send_pdu 2 (scenario TP_SIG_SMG_BV_06_C)
  = Done false
      (after_write (raw_pdu [x00; x01]) 2 (scenario TP_SIG_SMG_BV_06_C)).
Proof.
  refine (proj1
    (send_pdu_single_write 2 (scenario TP_SIG_SMG_BV_06_C)
       (raw_pdu [x00; x01]) _ _ _) _).
  - simpl. lia.
  - reflexivity.
  - split; vm_compute; reflexivity.
  - reflexivity.
Defined.

(** ** The cursor *)

(** C9. Whatever the condition and whatever there is to read, a run of
    [test_handler] leaves the cursor one further than it found it; on an
    error, hangup or invalid condition it returns at once, having read
    and compared nothing, with that entry consumed. *)
Theorem test_handler_consumes_entry (cond : Z)
    (incoming : option (list byte)) (c : context) :
  0 <= pdu_offset c < 2 ^ 32 - 1 ->
  pdu_offset (final_state (test_handler cond incoming c)) = pdu_offset c + 1 /\
  (terminal_cond cond = true ->
   test_handler cond incoming c = Done false (consumed c) /\
   fd (consumed c) = fd c /\
   main_loop (consumed c) = main_loop c).
Proof.
  intros Ho. split.
  - now apply test_handler_pdu_offset.
  - intros Ht. split; [now apply test_handler_terminal | split; reflexivity].
Qed.

Lemma test_handler_consumes_entry_witness :
  pdu_offset
    (final_state (test_handler G_IO_HUP None (scenario TP_SIG_SMG_BV_06_C)))
  = 1.
Proof.
  refine (proj1
    (test_handler_consumes_entry G_IO_HUP None
       (scenario TP_SIG_SMG_BV_06_C) _)).
  simpl. lia.
Defined.

(** ** The read buffer *)

(** C10. On a data event the handler makes one [read] of at most 512
    bytes.  A [read] that fails or returns no byte stops the scenario at
    the assertion on its result, and no entry of more than 512 bytes is
    ever verified: the handler does not return on it, whatever the peer
    sent, the very bytes of the entry included. *)
Theorem test_handler_read_buffer (cond : Z) (incoming : option (list byte))
    (c : context) :
  0 <= pdu_offset c < 2 ^ 32 - 1 ->
  terminal_cond cond = false ->
  (exists len buf,
     read incoming 512 = (len, buf) /\ len <= 512 /\
     fd (final_state (test_handler cond incoming c))
     = sys_read 512 len buf :: fd c) /\
  ((read incoming 512).1 <= 0 ->
   test_handler cond incoming c
   = Abort test_handler_len_positive (after_read incoming c)) /\
  test_handler cond None c
  = Abort test_handler_len_positive (after_read None c) /\
  test_handler cond (Some []) c
  = Abort test_handler_len_positive (after_read (Some []) c) /\
  (forall pdu,
     pdu_list c !! Z.to_nat (pdu_offset c) = Some pdu ->
     512 < size pdu ->
     returned (test_handler cond incoming c) = false /\
     aborted (test_handler cond (Some (data pdu)) c) = true).
Proof.
  intros Ho Ht.
  assert (Hgt : forall inc pdu,
    pdu_list c !! Z.to_nat (pdu_offset c) = Some pdu -> 512 < size pdu ->
    aborted (test_handler cond inc c) = true).
  { intros inc pdu Hp Hs.
    pose proof (read_bounds inc 512 ltac:(lia)) as [Hb _].
    destruct (Z.le_gt_cases (read inc 512).1 0) as [Hl|Hl].
    - rewrite test_handler_no_data by assumption. reflexivity.
    - rewrite (test_handler_wrong_length cond inc c pdu) by (assumption || lia).
      reflexivity. }
  split; [| split; [| split; [| split]]].
  - pose proof (read_bounds incoming 512 ltac:(lia)) as [Hb _].
    exists (read incoming 512).1, (read incoming 512).2.
    split; [apply surjective_pairing | split; [exact Hb |]].
    now rewrite test_handler_data_fd.
  - intros Hl. now apply test_handler_no_data.
  - apply test_handler_no_data; [assumption | assumption | simpl; lia].
  - apply test_handler_no_data; [assumption | assumption | simpl; lia].
  - intros pdu Hp Hs. split; [| now apply Hgt with pdu].
    specialize (Hgt incoming pdu Hp Hs).
    destruct (test_handler cond incoming c); [discriminate | | ]; reflexivity.
Qed.

Lemma test_handler_read_buffer_witness :
  test_handler G_IO_IN None (scenario TP_SIG_SMG_BV_05_C)
  = Abort test_handler_len_positive
      (after_read None (scenario TP_SIG_SMG_BV_05_C)).
Proof.
  refine (proj1 (proj2 (proj2
    (test_handler_read_buffer G_IO_IN None (scenario TP_SIG_SMG_BV_05_C)
       _ _)))).
  - simpl. lia.
  - reflexivity.
Defined.

(** ** Verification failures *)

(** C3, as the code has it.  The cursor moves on by one in every run of
    the handler, before anything is compared, and not only when the
    comparison succeeds.  When what was read differs from the entry at
    the cursor in length or in any byte -- one overwritten byte is
    enough -- the handler stops at an assertion with the cursor one past
    that entry and the main loop as it was: nothing queued, no quit. *)
Theorem mismatch_stops_one_past_entry (c : context) (pdu : test_pdu) :
  0 <= pdu_offset c < 2 ^ 32 - 1 ->
  pdu_list c !! Z.to_nat (pdu_offset c) = Some pdu ->
  wf_pdu pdu ->
  (forall cond incoming,
     pdu_offset (final_state (test_handler cond incoming c))
     = pdu_offset c + 1) /\
  (forall cond incoming,
     terminal_cond cond = false ->
     (read incoming 512).2 <> data pdu ->
     exists site,
       test_handler cond incoming c = Abort site (after_read incoming c) /\
       pdu_offset (after_read incoming c) = pdu_offset c + 1 /\
       main_loop (after_read incoming c) = main_loop c) /\
  (forall cond i b b',
     terminal_cond cond = false ->
     data pdu !! i = Some b -> b' <> b ->
     exists site,
       test_handler cond (Some (<[i:=b']> (data pdu))) c
       = Abort site (after_read (Some (<[i:=b']> (data pdu))) c)).
Proof.
  intros Ho Hp Hw. split; [| split].
  - intros cond incoming. now apply test_handler_pdu_offset.
  - intros cond incoming Ht Hd.
    destruct (test_handler_mismatch cond incoming c pdu) as [site Hs];
      try assumption.
    exists site. split; [exact Hs | split; reflexivity].
  - intros cond i b b' Ht Hi Hb.
    apply test_handler_mismatch with pdu; try assumption.
    now apply altered_byte_observed with b.
Qed.

Lemma mismatch_stops_one_past_entry_witness :
  exists site,
    test_handler G_IO_IN (Some [x00; x02]) (scenario TP_SIG_SMG_BV_05_C)
    = Abort site
        (after_read (Some [x00; x02]) (scenario TP_SIG_SMG_BV_05_C)).
Proof.
  refine (proj2 (proj2
    (mismatch_stops_one_past_entry (scenario TP_SIG_SMG_BV_05_C)
       (raw_pdu [x00; x01]) _ _ _)) G_IO_IN 1%nat x01 x02 _ _ _).
  - simpl. lia.
  - reflexivity.
  - split; vm_compute; reflexivity.
  - reflexivity.
  - reflexivity.
  - discriminate.
Defined.

(** C3, as stated, fails: on a hangup the handler returns with the
    cursor advanced although nothing was read or compared. *)
Lemma cursor_advances_without_verification :
  ~ (forall cond incoming c b c',
       test_handler cond incoming c = Done b c' ->
       pdu_offset c' = pdu_offset c + 1 ->
       exists pdu,
         pdu_list c !! Z.to_nat (pdu_offset c) = Some pdu /\
         0 < (read incoming 512).1 /\
         (read incoming 512).2 = data pdu).
Proof.
  intros H.
  destruct (H G_IO_HUP None (scenario TP_SIG_SMG_BV_06_C) false
              (consumed (scenario TP_SIG_SMG_BV_06_C)) eq_refl eq_refl)
    as (pdu & _ & Hl & _).
  simpl in Hl. lia.
Qed.

(** ** Terminal conditions *)

(** C8, as the code has it.  On an error, hangup or invalid condition
    the handler returns FALSE, so the loop removes its watch; it reads
    nothing, stops at no assertion and does not ask the loop to quit:
    the loop goes on as it was, without the watch. *)
Theorem terminal_condition_stops_watching (cond : Z)
    (incoming : option (list byte)) (c : context) :
  0 <= pdu_offset c < 2 ^ 32 - 1 ->
  terminal_cond cond = true ->
  test_handler cond incoming c = Done false (consumed c) /\
  dispatch (ev_io cond incoming) c = Done tt (remove_io_watch (consumed c)) /\
  io_watch (main_loop (remove_io_watch (consumed c))) = false /\
  is_running (main_loop (remove_io_watch (consumed c)))
  = is_running (main_loop c) /\
  idle_sources (main_loop (remove_io_watch (consumed c)))
  = idle_sources (main_loop c) /\
  fd (remove_io_watch (consumed c)) = fd c.
Proof.
  intros Ho Ht.
  pose proof (test_handler_terminal cond incoming c Ho Ht) as Hh.
  split; [exact Hh |].
  split; [unfold dispatch; rewrite Hh; reflexivity |].
  split; [reflexivity | split; [reflexivity | split; reflexivity]].
Qed.

Lemma terminal_condition_stops_watching_witness :
  test_handler G_IO_ERR None (scenario TP_SIG_SMG_BV_06_C)
  = Done false (consumed (scenario TP_SIG_SMG_BV_06_C)).
Proof.
  refine (proj1
    (terminal_condition_stops_watching G_IO_ERR None
       (scenario TP_SIG_SMG_BV_06_C) _ _)).
  - simpl. lia.
  - reflexivity.
Defined.

(** C8, as stated, fails: a hangup in the middle of a script, where a
    valid entry is still expected, stops at no assertion. *)
Lemma terminal_condition_not_fatal :
  ~ (forall cond incoming c pdu,
       terminal_cond cond = true ->
       pdu_list c !! Z.to_nat (pdu_offset c) = Some pdu ->
       valid pdu = true ->
       aborted (test_handler cond incoming c) = true).
Proof.
  intros H.
  specialize (H G_IO_HUP None (scenario TP_SIG_SMG_BV_06_C)
                (raw_pdu [x00; x01]) eq_refl eq_refl eq_refl).
  discriminate H.
Qed.

(** ** Runs of the main loop *)

Lemma send_pdu_done (wret : Z) (c : context) (b : bool) (c' : context) :
  0 <= pdu_offset c ->
  Z.of_nat (length (pdu_list c)) < 2 ^ 32 - 1 ->
  send_pdu wret c = Done b c' ->
  exists pdu,
    pdu_list c !! Z.to_nat (pdu_offset c) = Some pdu /\
    b = false /\ c' = after_write pdu wret c.
Proof.
  intros Ho Hlen. unfold send_pdu, after_write, consumed. simpl.
  destruct (pdu_list c !! Z.to_nat (pdu_offset c)) as [pdu|] eqn:Hp;
    [| discriminate].
  apply lookup_lt_Some in Hp as Hlt.
  rewrite uint_incr_small by lia.
  destruct (wret =? to_ssize_t (size pdu)); [| discriminate].
  intros [= <- <-]. now exists pdu.
Qed.

Lemma test_handler_done (cond : Z) (incoming : option (list byte))
    (c : context) (b : bool) (c' : context) :
  0 <= pdu_offset c < 2 ^ 32 - 1 ->
  test_handler cond incoming c = Done b c' ->
  (terminal_cond cond = true /\ b = false /\ c' = consumed c) \/
  (terminal_cond cond = false /\ b = true /\
   exists pdu next,
     pdu_list c !! Z.to_nat (pdu_offset c) = Some pdu /\
     pdu_list c !! Z.to_nat (pdu_offset c + 1) = Some next /\
     0 < (read incoming 512).1 /\
     (read incoming 512).1 = size pdu /\
     memcmp (read incoming 512).2 (data pdu) (Z.to_nat (size pdu)) = Some 0 /\
     c' = if valid next then g_idle_add_send_pdu (after_read incoming c)
          else context_quit (after_read incoming c)).
Proof.
  intros Ho. unfold test_handler, after_read, consumed.
  rewrite uint_incr_small by exact Ho.
  destruct (terminal_cond cond).
  { intros [= <- <-]. left. auto. }
  pose proof (read_bounds incoming 512 ltac:(lia)) as [Hb _].
  destruct (read incoming 512) as [len buf]. simpl in Hb |- *.
  destruct (Z.ltb_spec 0 len) as [Hl|Hl]; [| discriminate]. simpl.
  destruct (pdu_list c !! Z.to_nat (pdu_offset c)) as [pdu|] eqn:Hp;
    [| discriminate].
  rewrite to_size_t_small by lia.
  destruct (Z.eqb_spec len (size pdu)) as [Hs|Hs]; [| discriminate]. simpl.
  destruct (memcmp buf (data pdu) (Z.to_nat (size pdu))) as [r|] eqn:Hm;
    [| discriminate].
  destruct (Z.eqb_spec r 0) as [Hr|Hr]; [| discriminate]. simpl. subst r.
  unfold context_process. simpl.
  destruct (pdu_list c !! Z.to_nat (pdu_offset c + 1)) as [next|] eqn:Hn;
    [| discriminate].
  intros E. right. split; [reflexivity |].
  destruct (valid next) eqn:Hv; simpl in E; injection E as <- <-;
    (split; [reflexivity |]); exists pdu, next; rewrite Hv; auto 10.
Qed.

(** A verified read stored exactly the bytes of the entry. *)
Lemma verified_bytes (incoming : option (list byte)) (pdu : test_pdu) :
  wf_pdu pdu ->
  0 < (read incoming 512).1 ->
  (read incoming 512).1 = size pdu ->
  memcmp (read incoming 512).2 (data pdu) (Z.to_nat (size pdu)) = Some 0 ->
  (read incoming 512).2 = data pdu.
Proof.
  intros [Hw _] Hl Hs Hm.
  pose proof (read_bounds incoming 512 ltac:(lia)) as [_ Hlen].
  rewrite Hw, Nat2Z.id in Hm.
  destruct (memcmp_whole (read incoming 512).2 (data pdu)) as (r & Hr & Hiff);
    [lia |].
  rewrite Hr in Hm. apply Hiff. congruence.
Qed.

Lemma transcript_log (s : syscall) (c : context) :
  transcript (log_syscall s c) = transcript c ++ [payload s].
Proof. unfold transcript. simpl. now rewrite map_app. Qed.

Lemma script_take_next (test : list test_pdu) (o : Z) (pdu : test_pdu) :
  0 <= o ->
  test !! Z.to_nat o = Some pdu ->
  map data (take (Z.to_nat (o + 1)) test)
  = map data (take (Z.to_nat o) test) ++ [data pdu].
Proof.
  intros Ho Hp.
  replace (Z.to_nat (o + 1)) with (S (Z.to_nat o)) by lia.
  rewrite (take_S_r _ _ _ Hp), map_app. reflexivity.
Qed.

Lemma script_take_sublist (test : list test_pdu) (o : Z) :
  0 <= o ->
  map data (take (Z.to_nat o) test)
    `sublist_of` map data (take (Z.to_nat (o + 1)) test).
Proof.
  intros Ho.
  replace (Z.to_nat (o + 1)) with (S (Z.to_nat o)) by lia.
  destruct (test !! Z.to_nat o) as [pdu|] eqn:Hp.
  - rewrite (take_S_r _ _ _ Hp), map_app. now apply sublist_inserts_r.
  - apply lookup_ge_None in Hp. rewrite !take_ge by lia. reflexivity.
Qed.

Lemma dispatch_exchange_inv (k : nat) (test : list test_pdu) (e : event)
    (c c' : context) :
  Forall wf_pdu test ->
  Z.of_nat (length test) < 2 ^ 32 - 1 ->
  exchange_inv k test c ->
  is_running (main_loop c) = true ->
  ready e c = true ->
  dispatch e c = Done tt c' ->
  exchange_inv k test c'.
Proof.
  intros Hwf Hlen (Hl & Hcnt & Ho & Hsub) Hrun Hready Hd.
  unfold quits in Hcnt. rewrite Hrun in Hcnt.
  destruct e as [wret | cond incoming]; simpl in Hready, Hd.
  - destruct (send_pdu wret c) as [b c1| |] eqn:Hs; [| discriminate..].
    apply send_pdu_done in Hs as (pdu & Hp & -> & ->);
      [| lia | rewrite Hl; lia].
    injection Hd as <-.
    assert (Hw : wf_pdu pdu).
    { rewrite Hl in Hp. eapply Forall_lookup_1; eauto. }
    apply lookup_lt_Some in Hp as Hlt. rewrite Hl in Hlt, Hp.
    destruct (idle_sources (main_loop c)) as [|n] eqn:Hi; [discriminate |].
    unfold exchange_inv, quits, sends, reads, after_write in *.
    simpl in *. rewrite Hi, Hrun. simpl.
    split; [exact Hl |]. split; [lia |]. split; [destruct (io_watch _); lia |].
    unfold transcript in *. simpl.
    rewrite map_app, (script_take_next test _ pdu) by (lia || assumption).
    apply sublist_app; [exact Hsub |]. simpl.
    destruct Hw as [Hw _]. rewrite Hw, Nat2Z.id, firstn_all. reflexivity.
  - rewrite Hready in Ho.
    destruct (test_handler cond incoming c) as [b c1| |] eqn:Hs;
      [| discriminate..].
    apply test_handler_done in Hs; [| lia].
    destruct Hs as [(Ht & -> & ->) | (Ht & -> & pdu & next & Hp & Hn & Hpos
                                       & Hsz & Hm & ->)].
    + injection Hd as <-.
      unfold exchange_inv, quits, sends, reads, consumed in *.
      simpl in *. rewrite Hrun.
      split; [exact Hl |]. split; [lia |]. split; [lia |].
      etrans; [exact Hsub |].
      apply script_take_sublist. lia.
    + injection Hd as <-.
      assert (Hw : wf_pdu pdu).
      { rewrite Hl in Hp. eapply Forall_lookup_1; eauto. }
      pose proof (verified_bytes incoming pdu Hw Hpos Hsz Hm) as Hbuf.
      apply lookup_lt_Some in Hp as Hlt. rewrite Hl in Hlt, Hp.
      assert (Hsub' :
        transcript (after_read incoming c) `sublist_of`
          map data (take (Z.to_nat (pdu_offset c + 1)) test)).
      { unfold after_read. rewrite transcript_log.
        rewrite (script_take_next test _ pdu) by (lia || assumption).
        apply sublist_app; [exact Hsub |]. simpl. now rewrite Hbuf. }
      unfold exchange_inv, quits, sends, reads in *.
      destruct (valid next); simpl in *; rewrite ?Hrun, ?Hready;
        (split; [exact Hl |]); (split; [lia |]);
        (split; [lia | exact Hsub']).
Qed.

Lemma iterate_exchange_inv (k : nat) (test : list test_pdu)
    (es : list event) :
  Forall wf_pdu test ->
  Z.of_nat (length test) < 2 ^ 32 - 1 ->
  forall c c',
    exchange_inv k test c ->
    iterate es c = Done tt c' ->
    exchange_inv k test c'.
Proof.
  intros Hwf Hlen. induction es as [|e es IH]; intros c c' Hinv Hit.
  - injection Hit as <-. exact Hinv.
  - simpl in Hit.
    destruct (is_running (main_loop c)) eqn:Hrun; simpl in Hit;
      [| injection Hit as <-; exact Hinv].
    destruct (ready e c) eqn:Hready; [| now apply IH with c].
    destruct (dispatch e c) as [[] c1| |] eqn:Hd; [| discriminate..].
    apply IH with c1; [| exact Hit].
    now apply dispatch_exchange_inv with e c.
Qed.

Lemma send_pdu_main_loop (wret : Z) (c : context) :
  main_loop (final_state (send_pdu wret c)) = main_loop c.
Proof.
  unfold send_pdu. simpl.
  destruct (pdu_list c !! Z.to_nat (pdu_offset c)) as [pdu|];
    [destruct (wret =? to_ssize_t (size pdu)) |]; reflexivity.
Qed.

Lemma exchange_inv_start (k : nat) (test : list test_pdu) :
  exchange_inv k test
    (set_main_loop
       {| is_running := true; idle_sources := k; io_watch := true |}
       (scenario test)).
Proof.
  unfold exchange_inv, quits, sends, reads, transcript. simpl.
  split; [reflexivity |]. split; [lia |]. split; [lia |].
  apply sublist_nil_l.
Qed.

(** Two of the registered scenarios, run to their end: the session
    answers each PDU sent with the PDU the script expects. *)
Example run_BV_06_C :
  exists c,
    test_server TP_SIG_SMG_BV_06_C
      [ev_idle 2; ev_io G_IO_IN (Some [x02; x01; x04; x00])]
    = Done tt c /\
    is_running (main_loop c) = false /\ pdu_offset c = 2 /\
    sends c = 1%nat /\ reads c = 1%nat.
Proof. eexists. split; [reflexivity |]. repeat split. Qed.

Example run_BV_08_C :
  exists c,
    test_server TP_SIG_SMG_BV_08_C
      [ev_idle 2;
       ev_io G_IO_IN (Some [x02; x01; x04; x00]);
       ev_idle 3;
       ev_io G_IO_IN
         (Some [x12; x02; x01; x00; x07; x06; x00; x00; xff; xff; x02; x40])]
    = Done tt c /\
    is_running (main_loop c) = false /\ pdu_offset c = 4 /\
    sends c = 2%nat /\ reads c = 2%nat /\
    transcript c = map data (take 4 TP_SIG_SMG_BV_08_C).
Proof. eexists. split; [reflexivity |]. repeat split. Qed.

Example run_BV_05_C :
  exists c,
    test_discover TP_SIG_SMG_BV_05_C [ev_io G_IO_IN (Some [x00; x01])]
    = Done tt c /\
    is_running (main_loop c) = false /\ pdu_offset c = 1 /\
    sends c = 0%nat /\ reads c = 1%nat /\
    idle_sources (main_loop c) = 0%nat.
Proof. eexists. split; [reflexivity |]. repeat split. Qed.

(** ** Sends follow verified reads *)

(** C2, as the code has it.  In a server scenario, which starts with
    one send queued, and in a client scenario, which starts with none,
    the sends made and the sends still queued are, at every point of
    every run, as many as that first send and the reads verified so far
    that did not end the script: a send is queued by a verified read and
    by nothing else.  What went over the endpoint, sent and received,
    are entries of the script before the cursor, in the order of the
    script.  And a dispatch leaves more sends queued than it found only
    when it was the read handler returning after a verified read.
    Sends and reads need not alternate. *)
Theorem sends_follow_verified_reads (server : bool) (test : list test_pdu)
    (es : list event) (c : context) :
  Forall wf_pdu test ->
  Z.of_nat (length test) < 2 ^ 32 - 1 ->
  (if server then test_server test es else test_discover test es)
  = Done tt c ->
  (sends c + idle_sources (main_loop c) + quits c
   = (if server then 1 else 0) + reads c)%nat /\
  (sends c <= (if server then 1 else 0) + reads c)%nat /\
  transcript c `sublist_of` map data (take (Z.to_nat (pdu_offset c)) test) /\
  (forall e c0 c1,
     0 <= pdu_offset c0 < 2 ^ 32 - 1 ->
     dispatch e c0 = Done tt c1 ->
     (idle_sources (main_loop c0) < idle_sources (main_loop c1))%nat ->
     exists cond incoming pdu,
       e = ev_io cond incoming /\
       terminal_cond cond = false /\
       pdu_list c0 !! Z.to_nat (pdu_offset c0) = Some pdu /\
       (read incoming 512).1 = size pdu /\
       memcmp (read incoming 512).2 (data pdu) (Z.to_nat (size pdu))
       = Some 0 /\
       reads c1 = S (reads c0)).
Proof.
  intros Hwf Hlen Hrun.
  assert (Hinv : exchange_inv (if server then 1 else 0)%nat test c).
  { destruct server.
    - apply (iterate_exchange_inv 1 test es Hwf Hlen _ c
               (exchange_inv_start 1 test)).
      exact Hrun.
    - apply (iterate_exchange_inv 0 test es Hwf Hlen _ c
               (exchange_inv_start 0 test)).
      exact Hrun. }
  destruct Hinv as (_ & Hcnt & _ & Hsub).
  split; [exact Hcnt |]. split; [lia |]. split; [exact Hsub |].
  intros e c0 c1 Ho Hd Hmore.
  destruct e as [wret | cond incoming]; simpl in Hd.
  - exfalso.
    pose proof (send_pdu_main_loop wret c0) as Hm.
    destruct (send_pdu wret c0) as [b c2| |]; [| discriminate..].
    simpl in Hm. injection Hd as <-.
    destruct b; simpl in Hmore; rewrite Hm in Hmore; lia.
  - destruct (test_handler cond incoming c0) as [b c2| |] eqn:Hs;
      [| discriminate..].
    injection Hd as <-.
    apply test_handler_done in Hs; [| exact Ho].
    destruct Hs as [(Ht & -> & ->) | (Ht & -> & pdu & next & Hp & Hn & Hpos
                                       & Hsz & Hm & ->)].
    + simpl in Hmore. lia.
    + exists cond, incoming, pdu.
      repeat (split; [first [reflexivity | assumption] |]).
      unfold reads. destruct (valid next); reflexivity.
Qed.

Lemma sends_follow_verified_reads_witness :
  let c :=
    final_state
      (test_server TP_SIG_SMG_BV_06_C
         [ev_idle 2; ev_io G_IO_IN (Some [x02; x01; x04; x00])]) in
  (sends c + idle_sources (main_loop c) + quits c = 1 + reads c)%nat.
Proof.
  refine (proj1
    (sends_follow_verified_reads true TP_SIG_SMG_BV_06_C
       [ev_idle 2; ev_io G_IO_IN (Some [x02; x01; x04; x00])] _ _ _ _)).
  - repeat constructor; vm_compute; reflexivity.
  - vm_compute. reflexivity.
  - vm_compute. reflexivity.
Defined.

(** C2, as stated, fails: when the session sends the first entry of a
    server script itself, the send that its verification queues and the
    send queued at the start run one after the other, so two writes are
    made with no read between them. *)
Lemma sends_need_not_alternate :
  ~ (forall (server : bool) (test : list test_pdu) (es : list event)
       (c : context) (i : nat) (s1 s2 : syscall),
       Forall wf_pdu test ->
       (if server then test_server test es else test_discover test es)
       = Done tt c ->
       fd c !! i = Some s1 ->
       fd c !! S i = Some s2 ->
       is_write s1 = true ->
       is_write s2 = false).
Proof.
  intros H.
  specialize (H true TP_SIG_SMG_BV_08_C
                [ev_io G_IO_IN (Some [x00; x01]); ev_idle 4; ev_idle 3]
                _ 0%nat _ _
                ltac:(repeat constructor; vm_compute; reflexivity)
                eq_refl eq_refl eq_refl eq_refl).
  discriminate H.
Qed.

(** ** A script of end markers only *)











(** ** The callbacks of the local endpoint *)

Section CallbackProperties.

Context {avdtp_error avdtp_remote_sep avdtp_service_capability : Type}.
Variable avdtp_service_cap_new :
  Z -> option avdtp_media_codec_capability -> Z -> avdtp_service_capability.
Variables AVDTP_MEDIA_TRANSPORT AVDTP_MEDIA_CODEC AVDTP_MEDIA_TYPE_AUDIO : Z.
Variable sizeof_media_codec_capability : Z.

(** C6. Whatever [get_all] and whatever [*caps] held, [sep_getcap_ind]
    returns TRUE and leaves in [*caps] two records, in this order: a
    media-transport record built from no payload, and a media-codec
    record built from a codec capability of media type audio and codec
    type 0 that carries the four bytes ff ff 02 40.  [*err] is not
    written. *)
Theorem sep_getcap_ind_fixed_caps (get_all : bool)
    (caps : list avdtp_service_capability) (err : Z) :
  exists codec,
    sep_getcap_ind avdtp_service_cap_new AVDTP_MEDIA_TRANSPORT
      AVDTP_MEDIA_CODEC AVDTP_MEDIA_TYPE_AUDIO sizeof_media_codec_capability get_all caps err
    = (true,
       [avdtp_service_cap_new AVDTP_MEDIA_TRANSPORT None 0;
        avdtp_service_cap_new AVDTP_MEDIA_CODEC (Some codec)
          (sizeof_media_codec_capability + 4)],
       err) /\
    rfa0 codec = 0 /\
    media_type codec = AVDTP_MEDIA_TYPE_AUDIO /\
    media_codec_type codec = 0 /\
    codec_data codec = [xff; xff; x02; x40] /\
    Z.of_N (Byte.to_N x02) = 2 /\ Z.of_N (Byte.to_N x40) = 64 /\
    (forall get_all' caps',
       sep_getcap_ind avdtp_service_cap_new AVDTP_MEDIA_TRANSPORT
      AVDTP_MEDIA_CODEC AVDTP_MEDIA_TYPE_AUDIO sizeof_media_codec_capability get_all' caps' err
       = sep_getcap_ind avdtp_service_cap_new AVDTP_MEDIA_TRANSPORT
      AVDTP_MEDIA_CODEC AVDTP_MEDIA_TYPE_AUDIO sizeof_media_codec_capability get_all caps err).
Proof.
  eexists. split; [reflexivity |].
  repeat (split; [reflexivity |]).
  intros get_all' caps'. reflexivity.
Qed.

(** C7, as the code has it.  [sep_setconf_cfm] and [sep_open_cfm] stop
    at their assertion on [err] before anything else, whatever their
    other arguments.  [discover_cb] does so when it was given a context;
    given none, it returns at once without looking at [err]. *)
Theorem confirmations_assert_no_error (eng : engine) (e : avdtp_error) :
  (forall user_data (calls : list (engine_call avdtp_service_capability)),
     sep_setconf_cfm eng (Some e) user_data calls
     = Abort sep_setconf_cfm_err_null calls) /\
  (forall calls : list (engine_call avdtp_service_capability),
     sep_open_cfm eng (Some e) calls = Abort sep_open_cfm_err_null calls) /\
  (forall seps context calls,
     discover_cb (avdtp_error := avdtp_error)
       (avdtp_remote_sep := avdtp_remote_sep) avdtp_service_cap_new
       AVDTP_MEDIA_TRANSPORT AVDTP_MEDIA_CODEC AVDTP_MEDIA_TYPE_AUDIO
       sizeof_media_codec_capability eng seps (Some e) (Some context) calls
     = Abort discover_cb_err_null calls) /\
  (forall seps err calls,
     discover_cb (avdtp_error := avdtp_error)
       (avdtp_remote_sep := avdtp_remote_sep) avdtp_service_cap_new
       AVDTP_MEDIA_TRANSPORT AVDTP_MEDIA_CODEC AVDTP_MEDIA_TYPE_AUDIO
       sizeof_media_codec_capability eng seps err None calls
     = Done tt calls).
Proof.
  split; [| split; [| split]]; intros; reflexivity.
Qed.

End CallbackProperties.

(** C7, as stated, fails: [discover_cb] registered without a context, as
    [test_discover] registers it, returns on an error without stopping
    the scenario. *)
Lemma discover_cb_ignores_error_without_context :
  ~ (forall (eng : engine) (seps : list unit) (err : option unit)
       (user_data : option context)
       (calls : list (engine_call (list byte))),
       err <> None ->
       aborted
         (discover_cb (fun _ _ _ => []) 1 7 0 2
            eng seps err user_data calls) = true).
Proof.
  intros H.
  specialize (H {| avdtp_get_configuration := 0; avdtp_open := 0;
                   avdtp_start := 0; open_dev_null := 3;
                   avdtp_find_remote_sep := true;
                   avdtp_set_configuration := 0 |}
                [] (Some tt) None [] ltac:(discriminate)).
  discriminate H.
Qed.

(** * Further properties of the exchange *)

(** ** Scripts built by [define_test] *)

Lemma script_lookup_entry (pre : list (list byte)) (a : list byte)
    (rest : list (list byte)) :
  define_test (map raw_pdu (pre ++ a :: rest)) !! length pre
  = Some (raw_pdu a).
Proof.
  unfold define_test. rewrite List.map_app. simpl. rewrite <- app_assoc.
  simpl. apply list_lookup_middle. now rewrite List.length_map.
Qed.

Lemma script_lookup_end (args : list (list byte)) :
  define_test (map raw_pdu args) !! length args = Some end_pdu.
Proof.
  unfold define_test. apply list_lookup_middle.
  now rewrite List.length_map.
Qed.

Lemma script_lookup_valid (args : list (list byte)) (i : nat) (p : test_pdu) :
  define_test (map raw_pdu args) !! i = Some p ->
  (valid p = true /\ (i < length args)%nat) \/
  (p = end_pdu /\ (length args <= i)%nat).
Proof.
  unfold define_test. intros Hp.
  destruct (Nat.lt_ge_cases i (length args)) as [Hlt|Hge].
  - left. split; [| exact Hlt].
    rewrite lookup_app_l in Hp by (now rewrite List.length_map).
    apply list_elem_of_lookup_2, list_elem_of_In, in_map_iff in Hp.
    destruct Hp as (a & <- & _). reflexivity.
  - right. split; [| exact Hge].
    rewrite lookup_app_r in Hp by (now rewrite List.length_map).
    apply list_elem_of_lookup_2 in Hp.
    repeat (apply elem_of_cons in Hp as [Hp | Hp]; [exact Hp |]).
    now apply elem_of_nil in Hp.
Qed.

Lemma turn_after_S (s : bool) (n : nat) :
  turn_after s (S n) = turn_after (negb s) n.
Proof.
  unfold turn_after. rewrite Nat.even_succ, <- Nat.negb_even.
  destruct (Nat.even n), s; reflexivity.
Qed.

Lemma conforming_app (s : bool) (l1 l2 : list (list byte)) :
  conforming s (l1 ++ l2)
  = conforming s l1 ++ conforming (turn_after s (length l1)) l2.
Proof.
  revert s. induction l1 as [|a l1 IH]; intros s; [reflexivity |].
  simpl. rewrite IH, turn_after_S. reflexivity.
Qed.

(** ** One turn of a conforming exchange *)

Lemma send_pdu_ok (wret : Z) (c : context) (pdu : test_pdu) :
  0 <= pdu_offset c < 2 ^ 32 - 1 ->
  pdu_list c !! Z.to_nat (pdu_offset c) = Some pdu ->
  wf_pdu pdu ->
  send_pdu wret c
  = if wret =? size pdu then Done false (after_write pdu wret c)
    else Abort send_pdu_len_eq_size (after_write pdu wret c).
Proof.
  intros Ho Hp Hw. unfold send_pdu, after_write, consumed. simpl.
  rewrite Hp, uint_incr_small, to_ssize_t_wf by assumption. reflexivity.
Qed.

Lemma wf_raw_pdu_short (a : list byte) :
  (length a <= 512)%nat -> wf_pdu (raw_pdu a).
Proof. intros H. apply wf_raw_pdu. lia. Qed.

Lemma iterate_send_turn (a : list byte) (es : list event) (c : context) :
  0 <= pdu_offset c < 2 ^ 32 - 1 ->
  (length a <= 512)%nat ->
  pdu_list c !! Z.to_nat (pdu_offset c) = Some (raw_pdu a) ->
  main_loop c
  = {| is_running := true; idle_sources := 1; io_watch := true |} ->
  exists c',
    iterate (ev_idle (Z.of_nat (length a)) :: es) c = iterate es c' /\
    pdu_list c' = pdu_list c /\
    pdu_offset c' = pdu_offset c + 1 /\
    main_loop c'
    = {| is_running := true; idle_sources := 0; io_watch := true |} /\
    transcript c' = transcript c ++ [a].
Proof.
  intros Ho Ha Hp Hml.
  exists (remove_idle_source
            (after_write (raw_pdu a) (Z.of_nat (length a)) c)).
  split; [| split; [reflexivity | split; [reflexivity | split]]].
  - cbn [iterate]. unfold ready, dispatch. rewrite Hml. simpl.
    rewrite (send_pdu_ok _ c (raw_pdu a) Ho Hp (wf_raw_pdu_short a Ha)).
    simpl. rewrite Z.eqb_refl. reflexivity.
  - unfold remove_idle_source. simpl. rewrite Hml. reflexivity.
  - unfold transcript. simpl. rewrite List.map_app. simpl.
    now rewrite Nat2Z.id, firstn_all.
Qed.

Lemma iterate_read_turn (a : list byte) (next : test_pdu)
    (es : list event) (c : context) :
  0 <= pdu_offset c < 2 ^ 32 - 1 ->
  (0 < length a <= 512)%nat ->
  pdu_list c !! Z.to_nat (pdu_offset c) = Some (raw_pdu a) ->
  pdu_list c !! Z.to_nat (pdu_offset c + 1) = Some next ->
  main_loop c
  = {| is_running := true; idle_sources := 0; io_watch := true |} ->
  exists c',
    iterate (ev_io G_IO_IN (Some a) :: es) c = iterate es c' /\
    pdu_list c' = pdu_list c /\
    pdu_offset c' = pdu_offset c + 1 /\
    main_loop c'
    = {| is_running := valid next;
         idle_sources := if valid next then 1 else 0;
         io_watch := true |} /\
    transcript c' = transcript c ++ [a].
Proof.
  intros Ho Ha Hp Hn Hml.
  assert (Hr : read (Some a) 512 = (Z.of_nat (length a), a))
    by (apply read_packet; lia).
  assert (Hh : test_handler G_IO_IN (Some a) c
               = Done true
                   (if valid next
                    then g_idle_add_send_pdu (after_read (Some a) c)
                    else context_quit (after_read (Some a) c))).
  { apply test_handler_verified with (raw_pdu a);
      try assumption; try reflexivity.
    - apply wf_raw_pdu_short. lia.
    - rewrite Hr. simpl. lia.
    - rewrite Hr. reflexivity. }
  exists (if valid next
          then g_idle_add_send_pdu (after_read (Some a) c)
          else context_quit (after_read (Some a) c)).
  split; [| split; [| split; [| split]]].
  - cbn [iterate]. unfold ready, dispatch. rewrite Hml, Hh. reflexivity.
  - destruct (valid next); reflexivity.
  - destruct (valid next); reflexivity.
  - destruct (valid next); simpl; rewrite Hml; reflexivity.
  - assert (Ht : transcript (after_read (Some a) c) = transcript c ++ [a]).
    { unfold after_read. rewrite transcript_log, Hr. reflexivity. }
    destruct (valid next); exact Ht.
Qed.

(** The exchange up to an entry that is not the last of the script. *)
Lemma conforming_prefix (mid : list (list byte)) :
  forall (s : bool) (pre post : list (list byte)) (es : list event)
         (c : context),
    post <> [] ->
    Forall (fun a => (0 < length a <= 512)%nat) mid ->
    Z.of_nat (length (pre ++ mid ++ post)) < 2 ^ 32 - 1 ->
    pdu_list c = define_test (map raw_pdu (pre ++ mid ++ post)) ->
    pdu_offset c = Z.of_nat (length pre) ->
    main_loop c
    = {| is_running := true; idle_sources := if s then 1 else 0;
         io_watch := true |} ->
    exists c',
      iterate (conforming s mid ++ es) c = iterate es c' /\
      pdu_list c' = pdu_list c /\
      pdu_offset c' = Z.of_nat (length (pre ++ mid)) /\
      main_loop c'
      = {| is_running := true;
           idle_sources := if turn_after s (length mid) then 1 else 0;
           io_watch := true |} /\
      transcript c' = transcript c ++ mid.
Proof.
  induction mid as [|a mid IH]; intros s pre post es c Hpost Hok Hlen Hl Ho Hml.
  - exists c. rewrite !app_nil_r. auto.
  - apply Forall_cons in Hok as [Ha Hok].
    assert (Hlen' : Z.of_nat (length pre) + 1
                    <= Z.of_nat (length (pre ++ (a :: mid) ++ post)))
      by (rewrite !length_app; simpl; lia).
    assert (Hp : pdu_list c !! Z.to_nat (pdu_offset c) = Some (raw_pdu a)).
    { rewrite Hl, Ho, Nat2Z.id. apply script_lookup_entry. }
    assert (Hre : pre ++ (a :: mid) ++ post = (pre ++ [a]) ++ mid ++ post)
      by (now rewrite <- app_assoc).
    assert (Hstep : exists c1,
      iterate (conforming s (a :: mid) ++ es) c
      = iterate (conforming (negb s) mid ++ es) c1 /\
      pdu_list c1 = pdu_list c /\
      pdu_offset c1 = pdu_offset c + 1 /\
      main_loop c1
      = {| is_running := true; idle_sources := if negb s then 1 else 0;
           io_watch := true |} /\
      transcript c1 = transcript c ++ [a]).
    { destruct s; simpl conforming.
      - apply iterate_send_turn; [lia | lia | exact Hp | exact Hml].
      - assert (Hnext : exists b rest, mid ++ post = b :: rest).
        { destruct mid as [|b mid']; [| now exists b, (mid' ++ post)].
          destruct post as [|b post']; [contradiction | now exists b, post']. }
        destruct Hnext as (b & rest & Hb).
        destruct (iterate_read_turn a (raw_pdu b)
                    (conforming true mid ++ es) c) as (c1 & H1);
          [lia | exact Ha | exact Hp | | exact Hml | exists c1; exact H1].
        rewrite Hl, Ho, Hre, Hb.
        replace (Z.to_nat (Z.of_nat (length pre) + 1))
          with (length (pre ++ [a])) by (rewrite length_app; simpl; lia).
        apply script_lookup_entry. }
    destruct Hstep as (c1 & Hit & Hl1 & Ho1 & Hml1 & Ht1).
    destruct (IH (negb s) (pre ++ [a]) post es c1) as
      (c' & Hit' & Hl' & Ho' & Hml' & Ht'); try assumption.
    + now rewrite <- Hre.
    + now rewrite Hl1, Hl, Hre.
    + rewrite Ho1, Ho, length_app. simpl. lia.
    + exists c'. split; [now rewrite Hit |].
      split; [now rewrite Hl' |].
      split; [now rewrite Ho', <- app_assoc |].
      split; [rewrite Hml'; cbn [length]; now rewrite turn_after_S |].
      now rewrite Ht', Ht1, <- app_assoc.
Qed.

Lemma turn_after_next (s : bool) (n : nat) :
  turn_after s (S n) = negb (turn_after s n).
Proof.
  unfold turn_after. rewrite Nat.even_succ, <- Nat.negb_even.
  destruct (Nat.even n), s; reflexivity.
Qed.

Lemma scenario_run (server : bool) (test : list test_pdu) (es : list event) :
  (if server then test_server test es else test_discover test es)
  = iterate es
      (set_main_loop
         {| is_running := true; idle_sources := if server then 1 else 0;
            io_watch := true |} (scenario test)).
Proof. destruct server; reflexivity. Qed.

(** ** A conforming exchange *)

(** X1. When every write takes the whole entry and the session sends
    back the very bytes the script expects, turn by turn, a scenario
    over a script of non-empty entries of at most 512 bytes consumes the
    whole script, in order, and leaves the cursor on the first end
    marker.  It ends with the loop asked to quit exactly when its last
    entry is one the session sends; when the last entry is one the
    harness sends, the loop is left running with nothing queued. *)
Theorem conforming_exchange_completes (server : bool)
    (args : list (list byte)) :
  args <> [] ->
  Forall (fun a => (0 < length a <= 512)%nat) args ->
  Z.of_nat (length args) < 2 ^ 32 - 1 ->
  exists c,
    (if server
     then test_server (define_test (map raw_pdu args))
            (conforming server args)
     else test_discover (define_test (map raw_pdu args))
            (conforming server args))
    = Done tt c /\
    pdu_offset c = Z.of_nat (length args) /\
    transcript c = args /\
    idle_sources (main_loop c) = 0%nat /\
    io_watch (main_loop c) = true /\
    is_running (main_loop c) = negb (turn_after server (length args)).
Proof.
  intros Hne Hok Hlen.
  destruct (exists_last Hne) as (body & last & ->).
  apply Forall_app in Hok as [Hbody Hlast].
  apply Forall_cons in Hlast as [Hlast _].
  rewrite scenario_run, conforming_app.
  destruct (conforming_prefix body server [] [last]
              (conforming (turn_after server (length body)) [last])
              (set_main_loop
                 {| is_running := true;
                    idle_sources := if server then 1 else 0;
                    io_watch := true |}
                 (scenario (define_test (map raw_pdu (body ++ [last]))))))
    as (c1 & Hit & Hl1 & Ho1 & Hml1 & Ht1);
    [discriminate | exact Hbody | exact Hlen | reflexivity | reflexivity
     | reflexivity |].
  rewrite Hit. simpl in Hl1, Ho1, Ht1.
  assert (Hp : pdu_list c1 !! Z.to_nat (pdu_offset c1) = Some (raw_pdu last)).
  { rewrite Hl1, Ho1, Nat2Z.id. apply script_lookup_entry. }
  assert (Hb : 0 <= pdu_offset c1 < 2 ^ 32 - 1).
  { rewrite Ho1. rewrite length_app in Hlen. simpl in Hlen. lia. }
  rewrite length_app, Nat.add_1_r, turn_after_next.
  destruct (turn_after server (length body)); simpl conforming.
  - destruct (iterate_send_turn last [] c1) as (c & Hc & Hl & Ho & Hml & Ht);
      [exact Hb | lia | exact Hp | exact Hml1 |].
    exists c. split; [exact Hc |].
    rewrite Ho, Ho1, Ht, Ht1, Hml. simpl. repeat split. lia.
  - destruct (iterate_read_turn last end_pdu [] c1)
      as (c & Hc & Hl & Ho & Hml & Ht);
      [exact Hb | exact Hlast | exact Hp | | exact Hml1 |].
    { rewrite Hl1, Ho1.
      replace (Z.to_nat (Z.of_nat (length body) + 1))
        with (length (body ++ [last])) by (rewrite length_app; simpl; lia).
      apply script_lookup_end. }
    exists c. split; [exact Hc |].
    rewrite Ho, Ho1, Ht, Ht1, Hml. simpl. repeat split. lia.
Qed.

Lemma conforming_exchange_completes_witness :
  exists c,
    test_server (define_test (map raw_pdu [[x00; x01]; [x02; x01; x04; x00]]))
      (conforming true [[x00; x01]; [x02; x01; x04; x00]])
    = Done tt c /\
    pdu_offset c = 2 /\
    transcript c = [[x00; x01]; [x02; x01; x04; x00]] /\
    idle_sources (main_loop c) = 0%nat /\
    io_watch (main_loop c) = true /\
    is_running (main_loop c) = false.
Proof.
  refine (conforming_exchange_completes true
            [[x00; x01]; [x02; x01; x04; x00]] _ _ _).
  - discriminate.
  - repeat constructor.
  - vm_compute. reflexivity.
Defined.

(** X2. In an exchange that conforms up to some entry, the first
    deviation at that entry stops the scenario at an assertion with the
    cursor one past it, whatever would have followed: a [write] that
    returns anything but the entry's length when the entry is one the
    harness sends, and bytes other than the entry's when it is one the
    session sends. *)
Theorem first_deviation_stops_scenario (server : bool)
    (pre : list (list byte)) (a : list byte) (post : list (list byte))
    (es : list event) :
  Forall (fun a => (0 < length a <= 512)%nat) (pre ++ [a]) ->
  Z.of_nat (length (pre ++ a :: post)) < 2 ^ 32 - 1 ->
  (turn_after server (length pre) = true ->
   forall wret,
     wret <> Z.of_nat (length a) ->
     exists c,
       (if server
        then test_server (define_test (map raw_pdu (pre ++ a :: post)))
               (conforming server pre ++ ev_idle wret :: es)
        else test_discover (define_test (map raw_pdu (pre ++ a :: post)))
               (conforming server pre ++ ev_idle wret :: es))
       = Abort send_pdu_len_eq_size c /\
       pdu_offset c = Z.of_nat (length pre) + 1) /\
  (turn_after server (length pre) = false ->
   forall cond incoming,
     terminal_cond cond = false ->
     (read incoming 512).2 <> a ->
     exists site c,
       (if server
        then test_server (define_test (map raw_pdu (pre ++ a :: post)))
               (conforming server pre ++ ev_io cond incoming :: es)
        else test_discover (define_test (map raw_pdu (pre ++ a :: post)))
               (conforming server pre ++ ev_io cond incoming :: es))
       = Abort site c /\
       pdu_offset c = Z.of_nat (length pre) + 1).
Proof.
  intros Hok Hlen.
  apply Forall_app in Hok as [Hpre Ha].
  apply Forall_cons in Ha as [Ha _].
  assert (Hprefix : forall bad,
    exists c1,
      (if server
       then test_server (define_test (map raw_pdu (pre ++ a :: post)))
              (conforming server pre ++ bad :: es)
       else test_discover (define_test (map raw_pdu (pre ++ a :: post)))
              (conforming server pre ++ bad :: es))
      = iterate (bad :: es) c1 /\
      pdu_list c1 !! Z.to_nat (pdu_offset c1) = Some (raw_pdu a) /\
      pdu_offset c1 = Z.of_nat (length pre) /\
      main_loop c1
      = {| is_running := true;
           idle_sources := if turn_after server (length pre) then 1 else 0;
           io_watch := true |}).
  { intros bad. rewrite scenario_run.
    destruct (conforming_prefix pre server [] (a :: post) (bad :: es)
                (set_main_loop
                   {| is_running := true;
                      idle_sources := if server then 1 else 0;
                      io_watch := true |}
                   (scenario (define_test (map raw_pdu (pre ++ a :: post))))))
      as (c1 & Hit & Hl1 & Ho1 & Hml1 & _);
      [discriminate | exact Hpre | exact Hlen | reflexivity | reflexivity
       | reflexivity |].
    exists c1. simpl in Hl1, Ho1.
    split; [exact Hit |]. split; [| split; [exact Ho1 | exact Hml1]].
    rewrite Hl1, Ho1, Nat2Z.id. apply script_lookup_entry. }
  assert (Hb : 0 <= Z.of_nat (length pre) < 2 ^ 32 - 1).
  { rewrite length_app in Hlen. simpl in Hlen. lia. }
  split.
  - intros Hturn wret Hw.
    destruct (Hprefix (ev_idle wret)) as (c1 & -> & Hp & Ho & Hml).
    rewrite Hturn in Hml.
    exists (after_write (raw_pdu a) wret c1). split.
    + cbn [iterate]. unfold ready, dispatch. rewrite Hml. simpl.
      rewrite (send_pdu_ok wret c1 (raw_pdu a));
        [| rewrite Ho; exact Hb | exact Hp | apply wf_raw_pdu_short; lia].
      simpl. destruct (Z.eqb_spec wret (Z.of_nat (length a)));
        [contradiction | reflexivity].
    + simpl. now rewrite Ho.
  - intros Hturn cond incoming Ht Hd.
    destruct (Hprefix (ev_io cond incoming)) as (c1 & -> & Hp & Ho & Hml).
    destruct (test_handler_mismatch cond incoming c1 (raw_pdu a))
      as (site & Hs);
      [rewrite Ho; exact Hb | exact Ht | exact Hp
       | apply wf_raw_pdu_short; lia | exact Hd |].
    exists site, (after_read incoming c1). split.
    + cbn [iterate]. unfold ready, dispatch. rewrite Hml, Hs. reflexivity.
    + simpl. now rewrite Ho.
Qed.

Lemma first_deviation_stops_scenario_witness :
  exists site c,
    test_server
      (define_test (map raw_pdu [[x00; x01]; [x02; x01; x04; x00]]))
      (conforming true [[x00; x01]]
       ++ [ev_io G_IO_IN (Some [x02; x01; x04; x01])])
    = Abort site c /\
    pdu_offset c = 2.
Proof.
  refine (proj2
    (first_deviation_stops_scenario true [[x00; x01]]
       [x02; x01; x04; x00] [] [] _ _) _
    G_IO_IN (Some [x02; x01; x04; x01]) _ _).
  - repeat constructor.
  - vm_compute. reflexivity.
  - reflexivity.
  - reflexivity.
  - discriminate.
Defined.

(** ** After a terminal condition *)

Lemma send_pdu_reads (wret : Z) (c : context) :
  reads (final_state (send_pdu wret c)) = reads c.
Proof.
  unfold send_pdu, reads. simpl.
  destruct (pdu_list c !! Z.to_nat (pdu_offset c)) as [pdu|];
    [destruct (wret =? to_ssize_t (size pdu)) |]; reflexivity.
Qed.

Lemma iterate_unwatched (es : list event) :
  forall c,
    io_watch (main_loop c) = false ->
    is_running (main_loop c) = true ->
    is_running (main_loop (final_state (iterate es c))) = true /\
    io_watch (main_loop (final_state (iterate es c))) = false /\
    reads (final_state (iterate es c)) = reads c.
Proof.
  induction es as [|e es IH]; intros c Hw Hr; [simpl; auto |].
  cbn [iterate]. rewrite Hr. simpl.
  destruct e as [wret | cond incoming]; simpl; [| rewrite Hw; now apply IH].
  destruct (negb (idle_sources (main_loop c) =? 0)%nat); [| now apply IH].
  pose proof (send_pdu_main_loop wret c) as Hm.
  pose proof (send_pdu_reads wret c) as Hrd.
  destruct (send_pdu wret c) as [b c1| site c1 | c1]; simpl in Hm, Hrd |- *.
  - destruct (IH (if b then c1 else remove_idle_source c1))
      as (H1 & H2 & H3).
    + destruct b; simpl; rewrite Hm; exact Hw.
    + destruct b; simpl; rewrite Hm; exact Hr.
    + split; [exact H1 |]. split; [exact H2 |].
      rewrite H3. destruct b; exact Hrd.
  - rewrite Hm. auto.
  - rewrite Hm. auto.
Qed.

(** X3. Once the handler has run on an error, hangup or invalid
    condition, the scenario can no longer complete: whatever events
    follow and however the run ends, the loop is never asked to quit,
    the watch stays removed and no [read] is made any more. *)
Theorem terminal_condition_blocks_scenario (cond : Z)
    (incoming : option (list byte)) (es : list event) (c : context) :
  0 <= pdu_offset c < 2 ^ 32 - 1 ->
  terminal_cond cond = true ->
  is_running (main_loop c) = true ->
  io_watch (main_loop c) = true ->
  is_running
    (main_loop (final_state (iterate (ev_io cond incoming :: es) c))) = true /\
  io_watch
    (main_loop (final_state (iterate (ev_io cond incoming :: es) c)))
  = false /\
  reads (final_state (iterate (ev_io cond incoming :: es) c)) = reads c.
Proof.
  intros Ho Ht Hr Hw.
  cbn [iterate]. unfold ready, dispatch. rewrite Hr, Hw. simpl.
  rewrite (test_handler_terminal cond incoming c Ho Ht).
  apply (iterate_unwatched es (remove_io_watch (consumed c)));
    [reflexivity | exact Hr].
Qed.

Lemma terminal_condition_blocks_scenario_witness :
  is_running
    (main_loop
       (final_state
          (test_server TP_SIG_SMG_BV_06_C
             [ev_io G_IO_HUP None; ev_idle 2;
              ev_io G_IO_IN (Some [x02; x01; x04; x00])]))) = true.
Proof.
  refine (proj1
    (terminal_condition_blocks_scenario G_IO_HUP None
       [ev_idle 2; ev_io G_IO_IN (Some [x02; x01; x04; x00])]
       (set_main_loop
          {| is_running := true; idle_sources := 1; io_watch := true |}
          (scenario TP_SIG_SMG_BV_06_C)) _ _ _ _)).
  - simpl. lia.
  - reflexivity.
  - reflexivity.
  - reflexivity.
Defined.

(** ** What the cursor accounts for *)

Lemma account_inv_start (k : nat) (test : list test_pdu) :
  account_inv test
    (set_main_loop
       {| is_running := true; idle_sources := k; io_watch := true |}
       (scenario test)).
Proof.
  unfold account_inv. simpl.
  split; [reflexivity |]. split; [reflexivity |].
  split; [reflexivity | discriminate].
Qed.

Lemma dispatch_account_inv (k : nat) (test : list test_pdu) (e : event)
    (c c' : context) :
  Forall wf_pdu test ->
  Z.of_nat (length test) < 2 ^ 32 - 1 ->
  exchange_inv k test c ->
  account_inv test c ->
  is_running (main_loop c) = true ->
  ready e c = true ->
  dispatch e c = Done tt c' ->
  account_inv test c'.
Proof.
  intros Hwf Hlen (_ & _ & Ho & _) (Hl & Hacc & Htr & _) Hrun Hready Hd.
  destruct e as [wret | cond incoming]; simpl in Hready, Hd.
  - destruct (send_pdu wret c) as [b c1| |] eqn:Hs; [| discriminate..].
    apply send_pdu_done in Hs as (pdu & Hp & -> & ->);
      [| lia | rewrite Hl; lia].
    injection Hd as <-.
    assert (Hw : wf_pdu pdu).
    { rewrite Hl in Hp. eapply Forall_lookup_1; eauto. }
    rewrite Hl in Hp.
    unfold account_inv, sends, reads, after_write in *. simpl in *.
    split; [exact Hl |]. split; [lia |].
    split; [| rewrite Hrun; discriminate].
    intros Hwatch. unfold transcript in *. simpl.
    rewrite List.map_app, (Htr Hwatch),
      (script_take_next test _ pdu) by (lia || assumption).
    simpl. destruct Hw as [Hw _].
    now rewrite Hw, Nat2Z.id, firstn_all.
  - rewrite Hready in Ho, Hacc.
    destruct (test_handler cond incoming c) as [b c1| |] eqn:Hs;
      [| discriminate..].
    apply test_handler_done in Hs; [| lia].
    destruct Hs as [(Ht & -> & ->) | (Ht & -> & pdu & next & Hp & Hn & Hpos
                                       & Hsz & Hm & ->)].
    + injection Hd as <-.
      unfold account_inv, sends, reads, consumed in *. simpl in *.
      split; [exact Hl |]. split; [lia |].
      split; [discriminate | rewrite Hrun; discriminate].
    + injection Hd as <-.
      assert (Hw : wf_pdu pdu).
      { rewrite Hl in Hp. eapply Forall_lookup_1; eauto. }
      pose proof (verified_bytes incoming pdu Hw Hpos Hsz Hm) as Hbuf.
      rewrite Hl in Hp, Hn.
      assert (Htr' :
        transcript (after_read incoming c)
        = map data (take (Z.to_nat (pdu_offset c + 1)) test)).
      { unfold after_read. rewrite transcript_log.
        rewrite (script_take_next test _ pdu) by (lia || assumption).
        change (transcript (consumed c)) with (transcript c).
        simpl. now rewrite Hbuf, (Htr Hready). }
      unfold account_inv, sends, reads in *.
      destruct (valid next) eqn:Hv; simpl in *; rewrite ?Hrun, ?Hready.
      * split; [exact Hl |]. split; [lia |].
        split; [intros _; exact Htr' | discriminate].
      * split; [exact Hl |]. split; [lia |].
        split; [intros _; exact Htr' |].
        intros _. split; [reflexivity |]. split; [lia |].
        exists pdu, next.
        replace (pdu_offset c + 1 - 1) with (pdu_offset c) by lia.
        repeat split; (assumption || lia).
Qed.

Lemma iterate_account_inv (k : nat) (test : list test_pdu)
    (es : list event) :
  Forall wf_pdu test ->
  Z.of_nat (length test) < 2 ^ 32 - 1 ->
  forall c c',
    exchange_inv k test c ->
    account_inv test c ->
    iterate es c = Done tt c' ->
    account_inv test c'.
Proof.
  intros Hwf Hlen. induction es as [|e es IH]; intros c c' Hinv Hacc Hit.
  - injection Hit as <-. exact Hacc.
  - simpl in Hit.
    destruct (is_running (main_loop c)) eqn:Hrun; simpl in Hit;
      [| injection Hit as <-; exact Hacc].
    destruct (ready e c) eqn:Hready; [| now apply IH with c].
    destruct (dispatch e c) as [[] c1| |] eqn:Hd; [| discriminate..].
    apply IH with c1; [| | exact Hit].
    + now apply dispatch_exchange_inv with e c.
    + now apply dispatch_account_inv with k e c.
Qed.

Lemma scenario_account_inv (server : bool) (test : list test_pdu)
    (es : list event) (c : context) :
  Forall wf_pdu test ->
  Z.of_nat (length test) < 2 ^ 32 - 1 ->
  (if server then test_server test es else test_discover test es)
  = Done tt c ->
  account_inv test c.
Proof.
  intros Hwf Hlen Hrun. rewrite scenario_run in Hrun.
  exact (iterate_account_inv _ test es Hwf Hlen _ c
           (exchange_inv_start _ test) (account_inv_start _ test) Hrun).
Qed.

(** X4. Between two dispatches of any run, the cursor is the number of
    writes made plus the number of reads verified, plus one once the
    handler has returned on a terminal condition; and as long as it has
    not, the bytes written and read are exactly the entries before the
    cursor, in the order of the script, none skipped. *)
Theorem cursor_accounts_for_exchange (server : bool) (test : list test_pdu)
    (es : list event) (c : context) :
  Forall wf_pdu test ->
  Z.of_nat (length test) < 2 ^ 32 - 1 ->
  (if server then test_server test es else test_discover test es)
  = Done tt c ->
  pdu_offset c
  = Z.of_nat (sends c + reads c)
    + (if io_watch (main_loop c) then 0 else 1) /\
  (io_watch (main_loop c) = true ->
   transcript c = map data (take (Z.to_nat (pdu_offset c)) test)).
Proof.
  intros Hwf Hlen Hrun.
  destruct (scenario_account_inv server test es c Hwf Hlen Hrun)
    as (_ & Hacc & Htr & _).
  split; assumption.
Qed.

Lemma cursor_accounts_for_exchange_witness :
  let c :=
    final_state
      (test_server TP_SIG_SMG_BV_08_C
         [ev_idle 2; ev_io G_IO_IN (Some [x02; x01; x04; x00]);
          ev_io G_IO_NVAL None; ev_idle 12]) in
  pdu_offset c = Z.of_nat (sends c + reads c) + 1.
Proof.
  refine (proj1
    (cursor_accounts_for_exchange true TP_SIG_SMG_BV_08_C
       [ev_idle 2; ev_io G_IO_IN (Some [x02; x01; x04; x00]);
        ev_io G_IO_NVAL None; ev_idle 12] _ _ _ _)).
  - repeat constructor; vm_compute; reflexivity.
  - vm_compute. reflexivity.
  - vm_compute. reflexivity.
Defined.

Lemma script_data (args : list (list byte)) :
  map data (take (length args) (define_test (map raw_pdu args))) = args.
Proof.
  unfold define_test.
  rewrite take_app_length' by (now rewrite List.length_map).
  rewrite List.map_map. simpl. apply List.map_id.
Qed.

(** X5. A scenario over a script built by [define_test] that ends with
    the loop asked to quit has gone through the whole script: whatever
    the events of the run were, its cursor is on the first end marker,
    and the bytes written and read are exactly the entries of the
    script, in order, one system call each. *)
Theorem completed_scenario_exchanged_script (server : bool)
    (args : list (list byte)) (es : list event) (c : context) :
  Forall (fun a => Z.of_nat (length a) < 2 ^ 63) args ->
  Z.of_nat (length args) + 2 < 2 ^ 32 - 1 ->
  (if server
   then test_server (define_test (map raw_pdu args)) es
   else test_discover (define_test (map raw_pdu args)) es)
  = Done tt c ->
  is_running (main_loop c) = false ->
  pdu_offset c = Z.of_nat (length args) /\
  transcript c = args /\
  (sends c + reads c)%nat = length args.
Proof.
  intros Hargs Hlen Hrun Hquit.
  assert (Hbound :
    Z.of_nat (length (define_test (map raw_pdu args))) < 2 ^ 32 - 1).
  { unfold define_test. rewrite length_app, List.length_map. simpl. lia. }
  destruct (scenario_account_inv server _ es c
              (wf_define_test args Hargs) Hbound Hrun)
    as (_ & Hacc & Htr & Hq).
  destruct (Hq Hquit) as (Hw & Hpos & prev & last & Hprev & Hsz & Hlast & Hv).
  assert (Ho : Z.to_nat (pdu_offset c) = length args).
  { apply script_lookup_valid in Hprev as [[_ Hi] | [-> _]];
      [| simpl in Hsz; lia].
    apply script_lookup_valid in Hlast as [[Hv' _] | [_ Hi']];
      [congruence | lia]. }
  rewrite Hw in Hacc.
  split; [lia |]. split; [| lia].
  rewrite (Htr Hw), Ho. apply script_data.
Qed.

Lemma completed_scenario_exchanged_script_witness :
  let c :=
    final_state
      (test_discover (define_test (map raw_pdu [[x00; x01]]))
         [ev_io G_IO_IN (Some [x00; x01])]) in
  pdu_offset c = 1 /\ transcript c = [[x00; x01]] /\
  (sends c + reads c)%nat = 1%nat.
Proof.
  refine (completed_scenario_exchanged_script false [[x00; x01]]
            [ev_io G_IO_IN (Some [x00; x01])] _ _ _ _ _).
  - repeat constructor.
  - vm_compute. reflexivity.
  - vm_compute. reflexivity.
  - vm_compute. reflexivity.
Defined.

(** ** The 512-byte buffer *)

(** X6. The handler sees no more of a packet than its buffer holds: a
    packet that starts with the 512 bytes of a 512-byte entry and goes
    on with any further bytes is verified as that entry. *)
Theorem over_long_packet_verifies (cond : Z) (c : context)
    (pdu next : test_pdu) (extra : list byte) :
  0 <= pdu_offset c < 2 ^ 32 - 1 ->
  terminal_cond cond = false ->
  pdu_list c !! Z.to_nat (pdu_offset c) = Some pdu ->
  wf_pdu pdu ->
  size pdu = 512 ->
  pdu_list c !! Z.to_nat (pdu_offset c + 1) = Some next ->
  (read (Some (data pdu ++ extra)) 512).2 = data pdu /\
  test_handler cond (Some (data pdu ++ extra)) c
  = Done true
      (if valid next
       then g_idle_add_send_pdu (after_read (Some (data pdu ++ extra)) c)
       else context_quit (after_read (Some (data pdu ++ extra)) c)).
Proof.
  intros Ho Ht Hp Hw Hs Hn.
  assert (Hlen : length (data pdu) = Z.to_nat 512).
  { destruct Hw as [Hw _]. rewrite Hs in Hw. lia. }
  assert (Hr : read (Some (data pdu ++ extra)) 512 = (512, data pdu)).
  { unfold read. rewrite take_app_length' by (symmetry; exact Hlen).
    rewrite Hlen. reflexivity. }
  split; [now rewrite Hr |].
  apply test_handler_verified with pdu; try assumption.
  - rewrite Hr. simpl. lia.
  - now rewrite Hr.
Qed.

Lemma over_long_packet_verifies_witness :
  test_handler G_IO_IN (Some (replicate 512 x00 ++ [x01]))
    (scenario (define_test [raw_pdu (replicate 512 x00)]))
  = Done true
      (context_quit
         (after_read (Some (replicate 512 x00 ++ [x01]))
            (scenario (define_test [raw_pdu (replicate 512 x00)])))).
Proof.
  refine (proj2
    (over_long_packet_verifies G_IO_IN
       (scenario (define_test [raw_pdu (replicate 512 x00)]))
       (raw_pdu (replicate 512 x00)) end_pdu [x01] _ _ _ _ _ _)).
  - simpl. lia.
  - reflexivity.
  - reflexivity.
  - split; vm_compute; reflexivity.
  - vm_compute. reflexivity.
  - reflexivity.
Defined.

(** ** Direction is not checked *)

Lemma iterate_read_any_turn (a : list byte) (next : test_pdu) (n : nat)
    (es : list event) (c : context) :
  0 <= pdu_offset c < 2 ^ 32 - 1 ->
  (0 < length a <= 512)%nat ->
  pdu_list c !! Z.to_nat (pdu_offset c) = Some (raw_pdu a) ->
  pdu_list c !! Z.to_nat (pdu_offset c + 1) = Some next ->
  main_loop c
  = {| is_running := true; idle_sources := n; io_watch := true |} ->
  exists c',
    iterate (ev_io G_IO_IN (Some a) :: es) c = iterate es c' /\
    pdu_list c' = pdu_list c /\
    pdu_offset c' = pdu_offset c + 1 /\
    main_loop c'
    = {| is_running := valid next;
         idle_sources := if valid next then S n else n;
         io_watch := true |} /\
    fd c' = sys_read 512 (Z.of_nat (length a)) a :: fd c.
Proof.
  intros Ho Ha Hp Hn Hml.
  assert (Hr : read (Some a) 512 = (Z.of_nat (length a), a))
    by (apply read_packet; lia).
  assert (Hh : test_handler G_IO_IN (Some a) c
               = Done true
                   (if valid next
                    then g_idle_add_send_pdu (after_read (Some a) c)
                    else context_quit (after_read (Some a) c))).
  { apply test_handler_verified with (raw_pdu a);
      try assumption; try reflexivity.
    - apply wf_raw_pdu_short. lia.
    - rewrite Hr. simpl. lia.
    - rewrite Hr. reflexivity. }
  exists (if valid next
          then g_idle_add_send_pdu (after_read (Some a) c)
          else context_quit (after_read (Some a) c)).
  split; [| split; [| split; [| split]]].
  - cbn [iterate]. unfold ready, dispatch. rewrite Hml, Hh. reflexivity.
  - destruct (valid next); reflexivity.
  - destruct (valid next); reflexivity.
  - destruct (valid next); simpl; rewrite Hml; reflexivity.
  - unfold after_read. rewrite Hr. destruct (valid next); reflexivity.
Qed.

Lemma inbound_prefix (mid : list (list byte)) :
  forall (n : nat) (pre post : list (list byte)) (es : list event)
         (c : context),
    post <> [] ->
    Forall (fun a => (0 < length a <= 512)%nat) mid ->
    Z.of_nat (length (pre ++ mid ++ post)) < 2 ^ 32 - 1 ->
    pdu_list c = define_test (map raw_pdu (pre ++ mid ++ post)) ->
    pdu_offset c = Z.of_nat (length pre) ->
    main_loop c
    = {| is_running := true; idle_sources := n; io_watch := true |} ->
    exists c',
      iterate (map (fun a => ev_io G_IO_IN (Some a)) mid ++ es) c
      = iterate es c' /\
      pdu_list c' = pdu_list c /\
      pdu_offset c' = Z.of_nat (length (pre ++ mid)) /\
      main_loop c'
      = {| is_running := true; idle_sources := (n + length mid)%nat;
           io_watch := true |} /\
      sends c' = sends c /\
      reads c' = (reads c + length mid)%nat.
Proof.
  induction mid as [|a mid IH]; intros n pre post es c Hpost Hok Hlen Hl Ho Hml.
  - exists c. rewrite !app_nil_r, !Nat.add_0_r. simpl. auto 10.
  - apply Forall_cons in Hok as [Ha Hok].
    assert (Hlen' : Z.of_nat (length pre) + 1
                    <= Z.of_nat (length (pre ++ (a :: mid) ++ post)))
      by (rewrite !length_app; simpl; lia).
    assert (Hre : pre ++ (a :: mid) ++ post = (pre ++ [a]) ++ mid ++ post)
      by (now rewrite <- app_assoc).
    assert (Hnext : exists b rest, mid ++ post = b :: rest).
    { destruct mid as [|b mid']; [| now exists b, (mid' ++ post)].
      destruct post as [|b post']; [contradiction | now exists b, post']. }
    destruct Hnext as (b & rest & Hb).
    destruct (iterate_read_any_turn a (raw_pdu b) n
                (map (fun a => ev_io G_IO_IN (Some a)) mid ++ es) c)
      as (c1 & Hit & Hl1 & Ho1 & Hml1 & Hfd1);
      [lia | exact Ha | | | exact Hml |].
    { rewrite Hl, Ho, Nat2Z.id. apply script_lookup_entry. }
    { rewrite Hl, Ho, Hre, Hb.
      replace (Z.to_nat (Z.of_nat (length pre) + 1))
        with (length (pre ++ [a])) by (rewrite length_app; simpl; lia).
      apply script_lookup_entry. }
    destruct (IH (S n) (pre ++ [a]) post es c1) as
      (c' & Hit' & Hl' & Ho' & Hml' & Hs' & Hr'); try assumption.
    + now rewrite <- Hre.
    + now rewrite Hl1, Hl, Hre.
    + rewrite Ho1, Ho, length_app. simpl. lia.
    + exists c'. split; [cbn [map app]; now rewrite Hit |].
      split; [now rewrite Hl' |].
      split; [now rewrite Ho', <- app_assoc |].
      split; [rewrite Hml'; simpl; do 2 f_equal; lia |].
      unfold sends, reads in *. rewrite Hs', Hr', Hfd1. simpl. lia.
Qed.

(** X8. The harness does not check which side an entry comes from: if
    the session itself sends every entry of the script, one after the
    other, each is verified and the scenario completes -- a server
    scenario too -- without a single [write], the sends it queued on the
    way left pending. *)
Theorem all_inbound_exchange_completes (server : bool)
    (args : list (list byte)) :
  args <> [] ->
  Forall (fun a => (0 < length a <= 512)%nat) args ->
  Z.of_nat (length args) < 2 ^ 32 - 1 ->
  exists c,
    (if server
     then test_server (define_test (map raw_pdu args))
            (map (fun a => ev_io G_IO_IN (Some a)) args)
     else test_discover (define_test (map raw_pdu args))
            (map (fun a => ev_io G_IO_IN (Some a)) args))
    = Done tt c /\
    is_running (main_loop c) = false /\
    pdu_offset c = Z.of_nat (length args) /\
    sends c = 0%nat /\
    reads c = length args /\
    idle_sources (main_loop c)
    = ((if server then 1 else 0) + (length args - 1))%nat.
Proof.
  intros Hne Hok Hlen.
  destruct (exists_last Hne) as (body & last & ->).
  apply Forall_app in Hok as [Hbody Hlast].
  apply Forall_cons in Hlast as [Hlast _].
  rewrite scenario_run, List.map_app.
  destruct (inbound_prefix body (if server then 1 else 0)%nat [] [last]
              (map (fun a => ev_io G_IO_IN (Some a)) [last])
              (set_main_loop
                 {| is_running := true;
                    idle_sources := if server then 1 else 0;
                    io_watch := true |}
                 (scenario (define_test (map raw_pdu (body ++ [last]))))))
    as (c1 & Hit & Hl1 & Ho1 & Hml1 & Hs1 & Hr1);
    [discriminate | exact Hbody | exact Hlen | reflexivity | reflexivity
     | reflexivity |].
  rewrite Hit. simpl in Hl1, Ho1, Hs1, Hr1.
  assert (Hb : 0 <= pdu_offset c1 < 2 ^ 32 - 1).
  { rewrite Ho1. rewrite length_app in Hlen. simpl in Hlen. lia. }
  destruct (iterate_read_any_turn last end_pdu
              ((if server then 1 else 0) + length body)%nat [] c1 Hb Hlast)
    as (c & Hc & Hl & Ho & Hml & Hfd); [| | exact Hml1 |].
  { rewrite Hl1, Ho1, Nat2Z.id. apply script_lookup_entry. }
  { rewrite Hl1, Ho1.
    replace (Z.to_nat (Z.of_nat (length body) + 1))
      with (length (body ++ [last])) by (rewrite length_app; simpl; lia).
    apply script_lookup_end. }
  exists c. split; [exact Hc |].
  rewrite Hml, Ho, Ho1, length_app. simpl.
  unfold sends, reads in *. simpl in Hs1, Hr1.
  rewrite Hfd. simpl. rewrite Hs1, Hr1.
  repeat split; lia.
Qed.

Lemma all_inbound_exchange_completes_witness :
  exists c,
    test_server (define_test (map raw_pdu [[x00; x01]; [x02; x01; x04; x00]]))
      (map (fun a => ev_io G_IO_IN (Some a))
         [[x00; x01]; [x02; x01; x04; x00]])
    = Done tt c /\
    is_running (main_loop c) = false /\
    pdu_offset c = 2 /\
    sends c = 0%nat /\
    reads c = 2%nat /\
    idle_sources (main_loop c) = 2%nat.
Proof.
  refine (all_inbound_exchange_completes true
            [[x00; x01]; [x02; x01; x04; x00]] _ _ _).
  - discriminate.
  - repeat constructor.
  - vm_compute. reflexivity.
Defined.

(** ** What the endpoint callbacks ask of the session *)

Section CallbackCalls.

Context {avdtp_error avdtp_remote_sep avdtp_service_capability : Type}.
Variable avdtp_service_cap_new :
  Z -> option avdtp_media_codec_capability -> Z -> avdtp_service_capability.
Variables AVDTP_MEDIA_TRANSPORT AVDTP_MEDIA_CODEC AVDTP_MEDIA_TYPE_AUDIO : Z.
Variable sizeof_media_codec_capability : Z.

(** X9. Given a context whose cursor is on a well-formed entry,
    [sep_setconf_cfm] reads in bounds and takes its next step from the
    script: it returns exactly when there is no error and the entry at
    the cursor either has fewer than two bytes, or has 0x04 as second
    byte and [avdtp_get_configuration] returned 0, or has 0x06 as second
    byte and [avdtp_open] returned 0.  It makes at most one call into
    the session, the one the second byte names. *)
Theorem sep_setconf_cfm_follows_script (eng : engine)
    (err : option avdtp_error) (context : context) (pdu : test_pdu)
    (calls : list (engine_call avdtp_service_capability)) :
  pdu_list context !! Z.to_nat (pdu_offset context) = Some pdu ->
  wf_pdu pdu ->
  (returned (sep_setconf_cfm eng err (Some context) calls) = true <->
   err = None /\
   (size pdu < 2 \/
    (data pdu !! 1%nat = Some x04 /\ avdtp_get_configuration eng = 0) \/
    (data pdu !! 1%nat = Some x06 /\ avdtp_open eng = 0))) /\
  (final_state (sep_setconf_cfm eng err (Some context) calls) = calls \/
   (final_state (sep_setconf_cfm eng err (Some context) calls)
    = call_avdtp_get_configuration avdtp_service_capability :: calls /\
    data pdu !! 1%nat = Some x04) \/
   (final_state (sep_setconf_cfm eng err (Some context) calls)
    = call_avdtp_open avdtp_service_capability :: calls /\
    data pdu !! 1%nat = Some x06)) /\
  (forall s, sep_setconf_cfm eng err (Some context) calls <> Fault s).
Proof.
  intros Hp [Hw Hw']. unfold sep_setconf_cfm.
  destruct err as [e|]; simpl.
  { split; [split; [discriminate | intros [[=] _]] |].
    split; [now left | discriminate]. }
  rewrite Hp.
  destruct (Z.ltb_spec (size pdu) 2) as [Hs|Hs].
  { split; [split; [intros _; split; [reflexivity | left; exact Hs]
                   | reflexivity] |].
    split; [now left | discriminate]. }
  destruct (data pdu !! 1%nat) as [b|] eqn:Hb;
    [| apply lookup_ge_None in Hb; lia].
  destruct (Byte.eqb b x04) eqn:E4.
  { apply Byte.byte_dec_bl in E4 as ->.
    destruct (Z.eqb_spec (avdtp_get_configuration eng) 0) as [Hr|Hr]; simpl.
    - split; [split; [intros _; split; [reflexivity | right; left; auto]
                     | reflexivity] |].
      split; [right; left; auto | discriminate].
    - split; [split; [discriminate |] |].
      + intros (_ & [H | [[_ H] | [H _]]]); [lia | contradiction
                                                | discriminate H].
      + split; [right; left; auto | discriminate]. }
  apply Byte.eqb_false in E4.
  destruct (Byte.eqb b x06) eqn:E6.
  { apply Byte.byte_dec_bl in E6 as ->.
    destruct (Z.eqb_spec (avdtp_open eng) 0) as [Hr|Hr]; simpl.
    - split; [split; [intros _; split; [reflexivity | right; right; auto]
                     | reflexivity] |].
      split; [right; right; auto | discriminate].
    - split; [split; [discriminate |] |].
      + intros (_ & [H | [[H _] | [_ H]]]); [lia | discriminate H
                                                | contradiction].
      + split; [right; right; auto | discriminate]. }
  apply Byte.eqb_false in E6. simpl.
  split; [split; [discriminate |] |].
  - intros (_ & [H | [[H _] | [H _]]]); [lia | congruence | congruence].
  - split; [now left | discriminate].
Qed.

(** X10. [sep_open_cfm] returns exactly when there is no error, opening
    /dev/null gave a descriptor and [avdtp_start] returned 0; it has
    then handed that descriptor to the stream with both MTUs 672 before
    asking the session to start.  When /dev/null cannot be opened it
    stops before touching the stream. *)
Theorem sep_open_cfm_sequence (eng : engine) (err : option avdtp_error)
    (calls : list (engine_call avdtp_service_capability)) :
  (returned (sep_open_cfm eng err calls) = true <->
   err = None /\ 0 <= open_dev_null eng /\ avdtp_start eng = 0) /\
  (returned (sep_open_cfm eng err calls) = true ->
   final_state (sep_open_cfm eng err calls)
   = call_avdtp_start avdtp_service_capability
       :: call_avdtp_stream_set_transport avdtp_service_capability
            (open_dev_null eng) 672 672
       :: call_open_dev_null avdtp_service_capability :: calls) /\
  (err = None -> open_dev_null eng < 0 ->
   sep_open_cfm eng err calls
   = Abort sep_open_cfm_not_reached
       (call_open_dev_null avdtp_service_capability :: calls)).
Proof.
  unfold sep_open_cfm. destruct err as [e|]; simpl.
  { split; [split; [discriminate | intros [[=] _]] |].
    split; [discriminate | discriminate]. }
  destruct (Z.ltb_spec (open_dev_null eng) 0) as [Ho|Ho].
  { split; [split; [discriminate | intros (_ & H & _); lia] |].
    split; [discriminate | reflexivity]. }
  destruct (Z.eqb_spec (avdtp_start eng) 0) as [Hs|Hs]; simpl.
  - split; [split; [intros _; auto | reflexivity] |].
    split; [reflexivity | intros _ H; lia].
  - split; [split; [discriminate | intros (_ & _ & H); contradiction] |].
    split; [discriminate | intros _ H; lia].
Qed.

(** X11. Given a context, [discover_cb] returns exactly when there is no
    error, the session found at least one endpoint, the remote endpoint
    was found and [avdtp_set_configuration] returned 0.  It has then
    asked for a configuration of two capabilities: media transport
    without payload, and a media codec of type audio, codec 0, carrying
    the bytes 21 02 02 20.  On an error or an empty list of endpoints it
    stops before calling the session. *)
Theorem discover_cb_sequence (eng : engine) (seps : list avdtp_remote_sep)
    (err : option avdtp_error) (context : context)
    (calls : list (engine_call avdtp_service_capability)) :
  (returned
     (discover_cb avdtp_service_cap_new AVDTP_MEDIA_TRANSPORT
        AVDTP_MEDIA_CODEC AVDTP_MEDIA_TYPE_AUDIO
        sizeof_media_codec_capability eng seps err (Some context) calls)
   = true <->
   err = None /\ seps <> [] /\ avdtp_find_remote_sep eng = true /\
   avdtp_set_configuration eng = 0) /\
  (returned
     (discover_cb avdtp_service_cap_new AVDTP_MEDIA_TRANSPORT
        AVDTP_MEDIA_CODEC AVDTP_MEDIA_TYPE_AUDIO
        sizeof_media_codec_capability eng seps err (Some context) calls)
   = true ->
   final_state
     (discover_cb avdtp_service_cap_new AVDTP_MEDIA_TRANSPORT
        AVDTP_MEDIA_CODEC AVDTP_MEDIA_TYPE_AUDIO
        sizeof_media_codec_capability eng seps err (Some context) calls)
   = call_avdtp_set_configuration avdtp_service_capability
       [avdtp_service_cap_new AVDTP_MEDIA_TRANSPORT None 0;
        avdtp_service_cap_new AVDTP_MEDIA_CODEC
          (Some {| rfa0 := 0; media_type := AVDTP_MEDIA_TYPE_AUDIO;
                   media_codec_type := 0;
                   codec_data := [x21; x02; x02; x20] |})
          (sizeof_media_codec_capability + 4)]
       :: call_avdtp_find_remote_sep avdtp_service_capability :: calls) /\
  (err <> None \/ seps = [] ->
   aborted
     (discover_cb avdtp_service_cap_new AVDTP_MEDIA_TRANSPORT
        AVDTP_MEDIA_CODEC AVDTP_MEDIA_TYPE_AUDIO
        sizeof_media_codec_capability eng seps err (Some context) calls)
   = true /\
   final_state
     (discover_cb avdtp_service_cap_new AVDTP_MEDIA_TRANSPORT
        AVDTP_MEDIA_CODEC AVDTP_MEDIA_TYPE_AUDIO
        sizeof_media_codec_capability eng seps err (Some context) calls)
   = calls).
Proof.
  unfold discover_cb. destruct err as [e|]; simpl.
  { split; [split; [discriminate | intros [[=] _]] |].
    split; [discriminate | auto]. }
  destruct seps as [|sep seps]; simpl.
  { split; [split; [discriminate | intros (_ & H & _); contradiction] |].
    split; [discriminate | auto]. }
  destruct (avdtp_find_remote_sep eng); simpl.
  2:{ split; [split; [discriminate | intros (_ & _ & [=] & _)] |].
      split; [discriminate | intros [H | [=]]; contradiction]. }
  destruct (Z.eqb_spec (avdtp_set_configuration eng) 0) as [Hs|Hs]; simpl.
  - split; [split; [intros _; repeat split; (discriminate || assumption)
                   | reflexivity] |].
    split; [reflexivity | intros [H | [=]]; contradiction].
  - split; [split; [discriminate | intros (_ & _ & _ & H); contradiction] |].
    split; [discriminate | intros [H | [=]]; contradiction].
Qed.

End CallbackCalls.

Lemma sep_setconf_cfm_follows_script_witness :
  returned
    (sep_setconf_cfm (avdtp_error := unit) (avdtp_service_capability := unit)
       {| avdtp_get_configuration := 0; avdtp_open := 0; avdtp_start := 0;
          open_dev_null := 3; avdtp_find_remote_sep := true;
          avdtp_set_configuration := 0 |}
       None (Some (set_pdu_offset 6 (scenario TP_SIG_SMG_BV_11_C))) [])
  = true.
Proof.
  refine (proj2 (proj1
    (@sep_setconf_cfm_follows_script unit unit
       {| avdtp_get_configuration := 0; avdtp_open := 0; avdtp_start := 0;
          open_dev_null := 3; avdtp_find_remote_sep := true;
          avdtp_set_configuration := 0 |}
       None (set_pdu_offset 6 (scenario TP_SIG_SMG_BV_11_C))
       (raw_pdu [x90; x04; x04]) [] _ _)) _).
  - reflexivity.
  - split; vm_compute; reflexivity.
  - split; [reflexivity |]. right. left. split; reflexivity.
Defined.

(** ** Reads of the script stay in bounds *)

(** X12. While the cursor is inside the array that [define_test] built,
    a run of the handler never reads the script out of bounds: a read
    can only be verified against an entry before the end markers, and
    the entry [context_process] then looks at is at most the first end
    marker.  On a data event with the cursor on an end marker the
    handler never returns. *)
Theorem test_handler_in_bounds (args : list (list byte)) (cond : Z)
    (incoming : option (list byte)) (c : context) :
  Forall (fun a => Z.of_nat (length a) < 2 ^ 63) args ->
  pdu_list c = define_test (map raw_pdu args) ->
  0 <= pdu_offset c < Z.of_nat (length args) + 2 ->
  pdu_offset c < 2 ^ 32 - 1 ->
  (forall s, test_handler cond incoming c <> Fault s) /\
  (terminal_cond cond = false ->
   Z.of_nat (length args) <= pdu_offset c ->
   aborted (test_handler cond incoming c) = true).
Proof.
  intros Hargs Hl Ho Hb.
  assert (Hin : exists pdu,
    pdu_list c !! Z.to_nat (pdu_offset c) = Some pdu).
  { apply lookup_lt_is_Some_2. rewrite Hl. unfold define_test.
    rewrite length_app, List.length_map. simpl. lia. }
  destruct Hin as [pdu Hp].
  assert (Hw : wf_pdu pdu).
  { rewrite Hl in Hp.
    exact (Forall_lookup_1 _ _ _ _ (wf_define_test args Hargs) Hp). }
  destruct (terminal_cond cond) eqn:Ht.
  { rewrite test_handler_terminal by (lia || assumption).
    split; [discriminate | discriminate]. }
  destruct (Z.le_gt_cases (read incoming 512).1 0) as [Hlen|Hlen].
  { rewrite test_handler_no_data by (lia || assumption).
    split; [discriminate | reflexivity]. }
  destruct (Z.eq_dec (read incoming 512).1 (size pdu)) as [Hs|Hs].
  2:{ rewrite (test_handler_wrong_length cond incoming c pdu)
        by (lia || assumption).
      split; [discriminate | reflexivity]. }
  assert (Hlt : (Z.to_nat (pdu_offset c) < length args)%nat).
  { rewrite Hl in Hp.
    apply script_lookup_valid in Hp as [[_ Hi] | [-> _]];
      [exact Hi | simpl in Hs; lia]. }
  split; [| intros _ Hge; lia].
  destruct (List.list_eq_dec Byte.byte_eq_dec (read incoming 512).2 (data pdu))
    as [Hd|Hd].
  - assert (Hnext : exists next,
      pdu_list c !! Z.to_nat (pdu_offset c + 1) = Some next).
    { apply lookup_lt_is_Some_2. rewrite Hl. unfold define_test.
      rewrite length_app, List.length_map. simpl. lia. }
    destruct Hnext as [next Hn].
    rewrite (test_handler_verified cond incoming c pdu next)
      by (lia || assumption).
    discriminate.
  - rewrite (test_handler_wrong_bytes cond incoming c pdu)
      by (lia || assumption).
    discriminate.
Qed.

Lemma test_handler_in_bounds_witness :
  aborted
    (test_handler G_IO_IN (Some [x00])
       (set_pdu_offset 2 (scenario TP_SIG_SMG_BV_06_C))) = true.
Proof.
  refine (proj2
    (test_handler_in_bounds [[x00; x01]; [x02; x01; x04; x00]] G_IO_IN
       (Some [x00]) (set_pdu_offset 2 (scenario TP_SIG_SMG_BV_06_C))
       _ _ _ _) _ _).
  - repeat constructor.
  - reflexivity.
  - simpl. lia.
  - simpl. lia.
  - reflexivity.
  - simpl. lia.
Defined.
